(** * The hooks service of the workbench: registry, reload and execution engine

    A shallow embedding of
    [src/vs/workbench/contrib/hooks/common/hooks.ts] and
    [src/vs/workbench/contrib/hooks/browser/hooksService.ts].

    The service keeps a [Map<HookType, IHookConfiguration[]>]. The arrays in
    that map are shared JavaScript objects: the closure returned by
    [registerHook] keeps a reference to the array it pushed to, also after the
    map has dropped it. The embedding therefore has a small store of arrays
    addressed by location, and the map holds locations. [executeHooks] walks
    such an array while it is suspended and while listeners run, so the
    registry is threaded through the execution of a hook and through the
    delivery of an event. *)

From Stdlib Require Import ZArith String List Bool Lia.
From stdpp Require Import gmap strings pretty list fin_maps.

Local Open Scope string_scope.
Local Open Scope list_scope.

(** ** JavaScript values

    Hook configurations reach the service either typed ([registerHook] called
    from code) or as whatever [JSON.parse] and the settings service return,
    cast with [as IHookConfiguration] and never validated. Settings and file
    contents are modelled as plain JavaScript values. An object carries its
    identity ([ref]): the registry compares configurations with [===], which
    on objects is identity. [props] lists the own properties in enumeration
    order. Numbers are integers here (no NaN, no fractions); the text
    JavaScript makes of a number is left open. *)

#[warnings="-register-all"]
Inductive JSValue : Type :=
| JUndefined
| JNull
| JBool (b : bool)
| JNumber (n : Z)
| JString (s : string)
| JArray (elems : list JSValue)
| JObject (ref : nat) (props : list (string * JSValue)).

(** What a [throw] carries: an [Error] with its message, or a value that is
    no [Error], given by the text [String] makes of it. *)
Inductive Thrown : Type :=
| JSError (message : string)
| ThrownValue (text : string).

(** Outcome of a call that may throw. *)
Inductive Completion (A : Type) : Type :=
| Normal (a : A)
| Throw (error : Thrown).
Arguments Normal {A} a.
Arguments Throw {A} error.

(** [ToBoolean]: the test made by [if (v)], [!v], [a || b] and [a && b]. *)
Definition truthy (v : JSValue) : bool :=
  match v with
  | JUndefined | JNull => false
  | JBool b => b
  | JNumber n => negb (n =? 0)%Z
  | JString s => negb (String.eqb s "")
  | JArray _ | JObject _ _ => true
  end.

(** [a || b] *)
Definition js_or (a b : JSValue) : JSValue := if truthy a then a else b.

Fixpoint lookup_prop (key : string) (props : list (string * JSValue)) : JSValue :=
  match props with
  | [] => JUndefined
  | (k, v) :: rest => if String.eqb k key then v else lookup_prop key rest
  end.

(** [v.key] for a key that is no built-in property: a [TypeError] on
    [undefined] and [null], [undefined] on the other primitives and on arrays,
    the own property on objects. *)
Definition get (v : JSValue) (key : string) : Completion JSValue :=
  match v with
  | JUndefined =>
      Throw (JSError ("Cannot read properties of undefined (reading '" +:+ key +:+ "')"))
  | JNull =>
      Throw (JSError ("Cannot read properties of null (reading '" +:+ key +:+ "')"))
  | JObject _ props => Normal (lookup_prop key props)
  | _ => Normal JUndefined
  end.

(** Modelled from the spec: [isObject] of [base/common/types.js] is not among
    the sources. It holds of an object proper: not [null], not an array, not a
    primitive. *)
Definition isObject (v : JSValue) : bool :=
  match v with
  | JObject _ _ => true
  | _ => false
  end.

Definition Array_isArray (v : JSValue) : bool :=
  match v with
  | JArray _ => true
  | _ => false
  end.

(** [Object.entries(v)]: the own properties in enumeration order. *)
Definition Object_entries (v : JSValue) : list (string * JSValue) :=
  match v with
  | JObject _ props => props
  | _ => []
  end.

(** The object has an own property [key]. *)
Fixpoint has_prop (key : string) (props : list (string * JSValue)) : bool :=
  match props with
  | [] => false
  | (k, _) :: rest => String.eqb k key || has_prop key rest
  end.

(** The texts of the entries of an array put together by [join]; the
    entries are converted from left to right, so the first conversion that
    throws decides. *)
Fixpoint join_texts (separator : string) (parts : list (Completion string))
    : Completion string :=
  match parts with
  | [] => Normal ""
  | part :: rest =>
      match part with
      | Throw error => Throw error
      | Normal text =>
          match rest with
          | [] => Normal text
          | _ :: _ =>
              match join_texts separator rest with
              | Throw error => Throw error
              | Normal more => Normal (text +:+ separator +:+ more)
              end
          end
      end
  end.

Section Conversion.

(** [Number::toString], the decimal text of a number, left open. *)
Variable Number_toString : Z -> string.

(** [String(v)], the conversion a template literal applies; it may throw.
    The objects of the model have data properties only, as [JSON.parse] and
    the settings give them. An own [toString] is then not callable, so the
    conversion turns to [valueOf]: an own one is not callable either, and
    [Object.prototype.valueOf] gives the object back, which is no primitive:
    a [TypeError]. Without an own [toString] the conversion calls
    [Object.prototype.toString]. An array is converted by [join]. *)
Fixpoint String_ (v : JSValue) : Completion string :=
  match v with
  | JUndefined => Normal "undefined"
  | JNull => Normal "null"
  | JBool true => Normal "true"
  | JBool false => Normal "false"
  | JNumber n => Normal (Number_toString n)
  | JString s => Normal s
  | JArray elems =>
      join_texts ","
        (List.map (fun e => match e with
                            | JUndefined | JNull => Normal ""
                            | _ => String_ e
                            end) elems)
  | JObject _ props =>
      if has_prop "toString" props
      then Throw (JSError "Cannot convert object to primitive value")
      else Normal "[object Object]"
  end.

(** [elems.join(separator)] *)
Definition Array_join (separator : string) (elems : list JSValue)
    : Completion string :=
  join_texts separator
    (List.map (fun e => match e with
                        | JUndefined | JNull => Normal ""
                        | _ => String_ e
                        end) elems).

End Conversion.

(** ** common/hooks.ts *)

Inductive HookType : Type :=
| PreCopilotPrompt
| PreContextAttach
| PreCommit
| PrePush
| PrePull
| PostCopilotResponse
| WorkspaceOpen
| FileSave.

(** The string value of each member of the enum. *)
Definition HookType_value (t : HookType) : string :=
  match t with
  | PreCopilotPrompt => "pre-copilot-prompt"
  | PreContextAttach => "pre-context-attach"
  | PreCommit => "pre-commit"
  | PrePush => "pre-push"
  | PrePull => "pre-pull"
  | PostCopilotResponse => "post-copilot-response"
  | WorkspaceOpen => "workspace-open"
  | FileSave => "file-save"
  end.

(** [Object.values(HookType)] *)
Definition Object_values_HookType : list HookType :=
  [PreCopilotPrompt; PreContextAttach; PreCommit; PrePush; PrePull;
   PostCopilotResponse; WorkspaceOpen; FileSave].

(** [hookTypeName as HookType], guarded by
    [Object.values(HookType).includes(hookType)]: [None] when the guard fails. *)
Definition as_HookType (hookTypeName : string) : option HookType :=
  List.find (fun t => String.eqb (HookType_value t) hookTypeName)
            Object_values_HookType.

#[global] Instance HookType_eq_dec : EqDecision HookType.
Proof. solve_decision. Defined.

Definition HookType_index (t : HookType) : nat :=
  match t with
  | PreCopilotPrompt => 0
  | PreContextAttach => 1
  | PreCommit => 2
  | PrePush => 3
  | PrePull => 4
  | PostCopilotResponse => 5
  | WorkspaceOpen => 6
  | FileSave => 7
  end.

#[global] Instance HookType_countable : Countable HookType.
Proof.
  refine (inj_countable' HookType_index
            (fun n => nth n Object_values_HookType FileSave) _).
  intros []; reflexivity.
Defined.

(** [IHookConfiguration]: an object, with its identity. Every field of the
    interface is optional and nothing checks the shape at run time (the loader
    casts parsed JSON), so the fields are read from the properties the object
    happens to have. *)
Record IHookConfiguration : Type := {
  ref : nat;
  props : list (string * JSValue)
}.

Definition script (hook : IHookConfiguration) : JSValue :=
  lookup_prop "script" (props hook).
Definition command (hook : IHookConfiguration) : JSValue :=
  lookup_prop "command" (props hook).
Definition args (hook : IHookConfiguration) : JSValue :=
  lookup_prop "args" (props hook).
Definition timeout (hook : IHookConfiguration) : JSValue :=
  lookup_prop "timeout" (props hook).
Definition abortOnFailure (hook : IHookConfiguration) : JSValue :=
  lookup_prop "abortOnFailure" (props hook).

(** [a === b] on two configurations: the same object. *)
Definition same_object (a b : IHookConfiguration) : bool :=
  Nat.eqb (ref a) (ref b).

Record IHookResult : Type := {
  exitCode : Z;
  stdout : string;
  stderr : string;
  success : bool;
  executionTime : Z
}.

Record IHookContext : Type := {
  hookType : HookType;
  workspaceUri : option string;
  data : JSValue;
  fileUri : option string
}.

Record IHookExecutionEvent : Type := {
  event_hookType : HookType;
  configuration : IHookConfiguration;
  result : IHookResult;
  context : IHookContext
}.

(** ** Arrays *)

(** [l.indexOf(x)]: the first index whose element is [=== x], or [-1]. *)
Fixpoint indexOf (l : list IHookConfiguration) (x : IHookConfiguration) : Z :=
  match l with
  | [] => (-1)%Z
  | y :: rest =>
      if same_object y x then 0%Z
      else let i := indexOf rest x in
           if (i =? -1)%Z then (-1)%Z else (i + 1)%Z
  end.

(** [l.splice(start, deleteCount)]: the array that is left. A negative
    [start] counts from the end, and both are clamped to the array. *)
Definition splice {A : Type} (l : list A) (start deleteCount : Z) : list A :=
  let len := Z.of_nat (length l) in
  let from := if (start <? 0)%Z then Z.max (len + start) 0 else Z.min start len in
  let count := Z.min (Z.max deleteCount 0) (len - from) in
  take (Z.to_nat from) l ++ drop (Z.to_nat (from + count)) l.

(** ** browser/hooksService.ts: the registry *)

(** Locations of arrays in the store. *)
Abbreviation loc := nat.

Record HooksService : Type := {
  (** the arrays created by [registerHook], by location *)
  arrays : gmap nat (list IHookConfiguration);
  (** the next location to hand out *)
  next_loc : nat;
  (** [private readonly _registeredHooks = new Map<HookType, IHookConfiguration[]>()] *)
  _registeredHooks : gmap HookType nat
}.

Definition new_HooksService : HooksService :=
  {| arrays := ∅; next_loc := 0; _registeredHooks := ∅ |}.

Definition array_read (s : HooksService) (a : loc) : list IHookConfiguration :=
  default [] (arrays s !! a).

Definition array_write (s : HooksService) (a : loc)
    (l : list IHookConfiguration) : HooksService :=
  {| arrays := <[a := l]> (arrays s);
     next_loc := next_loc s;
     _registeredHooks := _registeredHooks s |}.

(** Modelled from the spec: [IDisposable] and [toDisposable] of
    [base/common/lifecycle.js] are not among the sources. A handle holds the
    function it was made from and whether it has been invoked. *)
Record IDisposable : Type := {
  fn : HooksService -> HooksService;
  didCall : bool
}.

(** Modelled from the spec: [toDisposable] of [base/common/lifecycle.js] is
    not among the sources. It wraps a function into a handle not invoked yet. *)
Definition toDisposable (f : HooksService -> HooksService) : IDisposable :=
  {| fn := f; didCall := false |}.

(** Modelled from the spec: [dispose()] on a handle made by [toDisposable],
    which is not among the sources. The first invocation runs the function;
    invoking the handle twice is a no-op the second time. *)
Definition dispose (d : IDisposable) (s : HooksService) : IDisposable * HooksService :=
  if didCall d then (d, s)
  else ({| fn := fn d; didCall := true |}, fn d s).

(** The arrow function handed to [toDisposable] by [registerHook]; it closes
    over the array [hooks] and over [configuration]. *)
Definition unregister (hooks : loc) (configuration : IHookConfiguration)
    (s : HooksService) : HooksService :=
  let index := indexOf (array_read s hooks) configuration in
  if negb (index =? -1)%Z
  then array_write s hooks (splice (array_read s hooks) index 1)
  else s.

Definition registerHook (hookType : HookType) (configuration : IHookConfiguration)
    (s : HooksService) : IDisposable * HooksService :=
  let '(hooks, s1) :=
    match _registeredHooks s !! hookType with
    | Some hooks => (hooks, s)
    | None =>
        let hooks := next_loc s in
        (hooks,
         {| arrays := <[hooks := []]> (arrays s);
            next_loc := S hooks;
            _registeredHooks := <[hookType := hooks]> (_registeredHooks s) |})
    end in
  let s2 := array_write s1 hooks (array_read s1 hooks ++ [configuration]) in
  (toDisposable (unregister hooks configuration), s2).

Definition getHooks (hookType : HookType) (s : HooksService) : list IHookConfiguration :=
  match _registeredHooks s !! hookType with
  | Some hooks => array_read s hooks
  | None => []
  end.

Definition hasHooks (hookType : HookType) (s : HooksService) : bool :=
  match _registeredHooks s !! hookType with
  | Some hooks => (0 <? Z.of_nat (length (array_read s hooks)))%Z
  | None => false
  end.

Definition clearHooks (hookType : HookType) (s : HooksService) : HooksService :=
  {| arrays := arrays s;
     next_loc := next_loc s;
     _registeredHooks := delete hookType (_registeredHooks s) |}.

(** ** browser/hooksService.ts: reload from the two configuration sources *)

(** [this._registeredHooks.clear()] *)
Definition Map_clear (s : HooksService) : HooksService :=
  {| arrays := arrays s;
     next_loc := next_loc s;
     _registeredHooks := ∅ |}.

(** [isObject(hookConfig)] followed by [hookConfig as IHookConfiguration]:
    [None] when the guard fails. *)
Definition as_IHookConfiguration (hookConfig : JSValue) : option IHookConfiguration :=
  match hookConfig with
  | JObject r p => Some {| ref := r; props := p |}
  | _ => None
  end.

(** The inner loop of [loadHooksFromConfig]:
    [for (const hookConfig of configs) if (isObject(hookConfig)) this.registerHook(...)].
    The handle [registerHook] returns is dropped. *)
Definition registerConfigs (hookType : HookType) (configs : list JSValue)
    (s : HooksService) : HooksService :=
  fold_left
    (fun s hookConfig =>
       match as_IHookConfiguration hookConfig with
       | Some c => snd (registerHook hookType c s)
       | None => s
       end)
    configs s.

(** [Array.isArray(hookConfigs) ? hookConfigs : [hookConfigs]] *)
Definition configs_of (hookConfigs : JSValue) : list JSValue :=
  match hookConfigs with
  | JArray elems => elems
  | _ => [hookConfigs]
  end.

(** The outer loop of [loadHooksFromConfig], over [Object.entries(config.hooks)]. *)
Definition registerEntries (entries : list (string * JSValue))
    (s : HooksService) : HooksService :=
  fold_left
    (fun s '(hookTypeName, hookConfigs) =>
       match as_HookType hookTypeName with
       | None => s
       | Some hookType => registerConfigs hookType (configs_of hookConfigs) s
       end)
    entries s.

(** [loadHooksFromConfig(config)]. The only statement that can throw is the
    first read of [config.hooks], before anything is written. *)
Definition loadHooksFromConfig (config : JSValue) (s : HooksService)
    : Completion HooksService :=
  match get config "hooks" with
  | Throw error => Throw error
  | Normal config_hooks =>
      if negb (truthy config_hooks) || negb (isObject config_hooks)
      then Normal s
      else Normal (registerEntries (Object_entries config_hooks) (Map_clear s))
  end.

(** What reading and parsing [.vscode/hooks.json] gave: the workspace has no
    folder; [readFile] or [JSON.parse] threw; or the parsed value. *)
Inductive HooksFile : Type :=
| NoWorkspaceFolder
| Unreadable
| Parsed (hooksConfig : JSValue).

(** The two sources a reload reads. *)
Record Sources : Type := {
  (** [this.configurationService.getValue<any>('hooks')] *)
  settings : JSValue;
  (** [.vscode/hooks.json] of the first workspace folder *)
  hooksFile : HooksFile
}.

(** [loadWorkspaceHooks()]. The settings are loaded before the file is read
    and the file after; the reload is taken as one step, with no other call
    on the registry while the file is being read. The [catch] around the
    second load meets the registry as the throw left it, which is as it was
    before that load. *)
Definition loadWorkspaceHooks (src : Sources) (s : HooksService)
    : Completion HooksService :=
  let config := settings src in
  match (if truthy config && isObject config
         then loadHooksFromConfig config s
         else Normal s) with
  | Throw error => Throw error
  | Normal s1 =>
      match hooksFile src with
      | NoWorkspaceFolder => Normal s1
      | Unreadable => Normal s1
      | Parsed hooksConfig =>
          match loadHooksFromConfig hooksConfig s1 with
          | Normal s2 => Normal s2
          | Throw _ => Normal s1
          end
      end
  end.

(** ** browser/hooksService.ts: the execution engine

    [executeHooks] is an [async] method. It holds the array of the hook type
    itself, not a copy, and [for (const hook of hooks)] reads that array
    anew at every turn: the entry at the next index, if the array then has
    one. Between two turns the call is suspended at
    [await this.executeHook(hook, context)], where other code may call the
    service, and it hands an event to [this._onHookExecuted.fire], whose
    listeners run at once and may call the service too. The registry is
    therefore part of the state that the execution and the listeners take
    and give back. *)

(** What one call of [executeHooks] does to the outside, in order: a call of
    [this.executeHook(hook, context)] with the way it settled, and an event
    handed to [this._onHookExecuted.fire]. Log lines are left out. *)
Inductive Effect : Type :=
| Executed (hook : IHookConfiguration) (ctx : IHookContext)
           (outcome : Completion IHookResult)
| Fired (e : IHookExecutionEvent).

(** [error instanceof Error ? error.message : String(error)] *)
Definition error_text (error : Thrown) : string :=
  match error with
  | JSError message => message
  | ThrownValue text => text
  end.

(** The result recorded for a hook whose execution threw (the object built
    in the [catch] block of [executeHooks]). *)
Definition errorResult (error : Thrown) : IHookResult :=
  {| exitCode := -1;
     stdout := "";
     stderr := error_text error;
     success := false;
     executionTime := 0 |}.

(** [await this.executeHook(hook, context)]: the private method and what
    happens until the caller goes on, as a function of the registry and of
    the state of whatever else there is (processes, the clock, other code
    that is waiting to run). *)
Definition Runner (World : Type) : Type :=
  IHookConfiguration -> IHookContext ->
  HooksService * World -> Completion IHookResult * (HooksService * World).

(** [this._onHookExecuted.fire(event)]. The emitter ([base/common/event.js])
    is not among the sources; [fire] is taken to hand the event to the
    listeners, which run to their end, and to return. *)
Definition Listeners (World : Type) : Type :=
  IHookExecutionEvent -> HooksService * World -> HooksService * World.

(** The array [const hooks = this._registeredHooks.get(hookType) || []] as
    it is in a state of the store: the array of the map, or, when the map
    has none, a new empty array that nothing else can reach. *)
Definition read_hooks (hooks : option loc) (s : HooksService)
    : list IHookConfiguration :=
  match hooks with
  | Some hooks => array_read s hooks
  | None => []
  end.

Section ExecutionEngine.

Context {World : Type}.

(** The private method [executeHook], left open: the body in the browser
    build is a stand-in (see [executeHook] below); one that runs a process
    may report a failure or throw. *)
Variable runner : Runner World.

Variable fire : Listeners World.

(** The [for (const hook of hooks)] loop of [executeHooks], at the turn for
    the entry at [index]. The array may grow while the loop runs, so the
    loop need not end: [fuel] bounds the number of turns, and [None] says
    that they did not suffice. *)
Fixpoint executeHooks_loop (fuel : nat) (hookType : HookType)
    (context : IHookContext) (hooks : option loc) (index : nat)
    (results : list IHookResult) (effects : list Effect)
    (st : HooksService * World)
    : option (list IHookResult * list Effect * (HooksService * World)) :=
  match read_hooks hooks (fst st) !! index with
  | None => Some (results, effects, st)
  | Some hook =>
      match fuel with
      | 0 => None
      | S fuel =>
          match runner hook context st with
          | (Normal result, st1) =>
              let results := results ++ [result] in
              let event :=
                {| event_hookType := hookType;
                   configuration := hook;
                   result := result;
                   context := context |} in
              let st2 := fire event st1 in
              let effects :=
                effects ++ [Executed hook context (Normal result); Fired event] in
              if negb (success result) && truthy (abortOnFailure hook)
              then Some (results, effects, st2)
              else executeHooks_loop fuel hookType context hooks (S index)
                     results effects st2
          | (Throw error, st1) =>
              let errorResult := errorResult error in
              let results := results ++ [errorResult] in
              let event :=
                {| event_hookType := hookType;
                   configuration := hook;
                   result := errorResult;
                   context := context |} in
              let st2 := fire event st1 in
              let effects :=
                effects ++ [Executed hook context (Throw error); Fired event] in
              if truthy (abortOnFailure hook)
              then Some (results, effects, st2)
              else executeHooks_loop fuel hookType context hooks (S index)
                     results effects st2
          end
      end
  end.

(** [executeHooks(hookType, context)]: the results it resolves to, its
    effects, and the registry and the outside when it is done. *)
Definition executeHooks_with (fuel : nat) (hookType : HookType)
    (context : IHookContext) (st : HooksService * World)
    : option (list IHookResult * list Effect * (HooksService * World)) :=
  let hooks := _registeredHooks (fst st) !! hookType in
  executeHooks_loop fuel hookType context hooks 0 [] [] st.

End ExecutionEngine.

(** What the body of [executeHook] uses of the platform: the conversion of
    numbers to text, the clock, [await timeout(100)] with
    [timeout] of [base/common/async.js] (not among the sources), and the
    [await] on the promise of [executeHook] itself. While the call waits,
    time passes and other code may run. *)
Record Platform (World : Type) : Type := {
  Number_toString : Z -> string;
  Date_now : World -> Z * World;
  await_timeout : Z -> HooksService * World -> HooksService * World;
  await_settled : HooksService * World -> HooksService * World
}.
Arguments Number_toString {World} _ _.
Arguments Date_now {World} _ _.
Arguments await_timeout {World} _ _ _.
Arguments await_settled {World} _ _.

(** The body of [executeHook] in the source, with the [await] of the caller
    on it. The fields of the object literal are evaluated in order: the
    template literal of [stdout] comes before the second reading of the
    clock, and when it throws, the method is left before
    [await timeout(100)]. The template literal of the log line after the
    wait converts the same value a second time. *)
Definition executeHook {World : Type} (platform : Platform World)
    (hook : IHookConfiguration) (context : IHookContext)
    (st : HooksService * World)
    : Completion IHookResult * (HooksService * World) :=
  let '(startTime, w1) := Date_now platform (snd st) in
  let timeoutMs := js_or (timeout hook) (JNumber 5000) in
  match String_ (Number_toString platform) (js_or (script hook) (command hook)) with
  | Throw error => (Throw error, await_settled platform (fst st, w1))
  | Normal text =>
      let '(now, w2) := Date_now platform w1 in
      let simulatedResult :=
        {| exitCode := 0;
           stdout := "Simulated execution of hook: " +:+ text;
           stderr := "";
           success := true;
           executionTime := now - startTime |} in
      (Normal simulatedResult,
       await_settled platform (await_timeout platform 100 (fst st, w2)))
  end.

(** [executeHooks] as the source has it. *)
Definition executeHooks {World : Type} (platform : Platform World)
    (fire : Listeners World)
    : nat -> HookType -> IHookContext -> HooksService * World ->
      option (list IHookResult * list Effect * (HooksService * World)) :=
  executeHooks_with (executeHook platform) fire.

(** * Callers of the service

    [browser/hooksIntegration.ts] and [browser/workbenchIntegration.ts]. Each
    caller asks [hasHooks], builds a context, awaits [executeHooks] and reads
    the results. Their [catch] around [executeHooks] is never entered, since
    [executeHooks] catches what [executeHook] throws; their log lines are
    left out as in the service. Where a caller builds an object literal for
    [data], [literal] is the identity of that new object; a URI is a string.
    A caller gives [None] when [executeHooks] does. *)

(** The loop the callers run over the results:
    [for (const result of results) { if (!result.success) { ...; return ...; } }].
    [true] when the loop runs to its end. *)
Fixpoint no_result_failed (results : list IHookResult) : bool :=
  match results with
  | [] => true
  | result :: rest =>
      if negb (success result) then false else no_result_failed rest
  end.

Module HooksIntegration.
Section Methods.

Context {World : Type}.

Variable runner : Runner World.

Variable fire : Listeners World.

(** [executePreCommitHooks(filePaths, workspaceUri)] *)
Definition executePreCommitHooks (fuel : nat) (literal : nat)
    (filePaths : list string) (workspaceUri : string)
    (st : HooksService * World)
    : option (bool * list Effect * (HooksService * World)) :=
  if negb (hasHooks PreCommit (fst st)) then Some (true, [], st)
  else
    let hookContext :=
      {| hookType := PreCommit;
         workspaceUri := Some workspaceUri;
         data := JObject literal [("filePaths", JArray (map JString filePaths))];
         fileUri := None |} in
    match executeHooks_with runner fire fuel PreCommit hookContext st with
    | Some (results, effects, st') => Some (no_result_failed results, effects, st')
    | None => None
    end.

(** [executeFileSaveHooks(fileUri, workspaceUri?)] *)
Definition executeFileSaveHooks (fuel : nat) (fileUri : string)
    (workspaceUri : option string) (st : HooksService * World)
    : option (bool * list Effect * (HooksService * World)) :=
  if negb (hasHooks FileSave (fst st)) then Some (true, [], st)
  else
    let hookContext :=
      {| hookType := FileSave;
         workspaceUri := workspaceUri;
         data := JUndefined;
         fileUri := Some fileUri |} in
    match executeHooks_with runner fire fuel FileSave hookContext st with
    | Some (results, effects, st') => Some (no_result_failed results, effects, st')
    | None => None
    end.

(** [HooksUsageExamples.commitChanges(filePaths, message, workspaceUri)];
    the commit itself is a [console.log]. *)
Definition commitChanges (fuel : nat) (literal : nat) (filePaths : list string)
    (message workspaceUri : string) (st : HooksService * World)
    : option (bool * list Effect * (HooksService * World)) :=
  match executePreCommitHooks fuel literal filePaths workspaceUri st with
  | Some (canCommit, effects, st') =>
      if negb canCommit then Some (false, effects, st') else Some (true, effects, st')
  | None => None
  end.

End Methods.
End HooksIntegration.

Module GitHooksIntegration.
Section Methods.

Context {World : Type}.

Variable runner : Runner World.

Variable fire : Listeners World.

(** [executePreCommitHooks(filePaths)]; [folders] are the URIs of
    [this.workspaceContextService.getWorkspace().folders]. *)
Definition executePreCommitHooks (fuel : nat) (literal : nat)
    (folders : list string) (filePaths : list string)
    (st : HooksService * World)
    : option (bool * list Effect * (HooksService * World)) :=
  if negb (hasHooks PreCommit (fst st)) then Some (true, [], st)
  else
    match folders with
    | [] => Some (true, [], st)
    | workspaceFolder :: _ =>
        match
          executeHooks_with runner fire fuel PreCommit
            {| hookType := PreCommit;
               workspaceUri := Some workspaceFolder;
               data := JObject literal [("filePaths", JArray (map JString filePaths))];
               fileUri := None |} st
        with
        | Some (results, effects, st') =>
            Some (no_result_failed results, effects, st')
        | None => None
        end
    end.

End Methods.
End GitHooksIntegration.

Module CopilotHooksIntegration.
Section Methods.

Context {World : Type}.

Variable runner : Runner World.

Variable fire : Listeners World.

(** [String.prototype.trim], a built-in, left open. *)
Variable trim : string -> string.

(** [executePreCopilotPromptHooks(prompt, context?)]: the prompt to send, or
    [None] for [null]. *)
Definition executePreCopilotPromptHooks (fuel : nat) (literal : nat)
    (folders : list string) (prompt : string) (context : JSValue)
    (st : HooksService * World)
    : option (option string * list Effect * (HooksService * World)) :=
  if negb (hasHooks PreCopilotPrompt (fst st)) then Some (Some prompt, [], st)
  else
    let workspaceFolder := head folders in
    match
      executeHooks_with runner fire fuel PreCopilotPrompt
        {| hookType := PreCopilotPrompt;
           workspaceUri := workspaceFolder;
           data := JObject literal [("prompt", JString prompt); ("context", context)];
           fileUri := None |} st
    with
    | None => None
    | Some (results, effects, st') =>
        if negb (no_result_failed results) then Some (None, effects, st')
        else
          match last results with
          | Some lastResult =>
              if negb (String.eqb (trim (stdout lastResult)) "")
              then Some (Some (trim (stdout lastResult)), effects, st')
              else Some (Some prompt, effects, st')
          | None => Some (Some prompt, effects, st')
          end
    end.

End Methods.
End CopilotHooksIntegration.

Module HooksWorkbenchContribution.

(** The command [hooks.clearAll]:
    [Object.values(HookType).forEach(hookType => this.hooksService.clearHooks(hookType))]. *)
Definition clearAll (s : HooksService) : HooksService :=
  fold_left (fun s hookType => clearHooks hookType s) Object_values_HookType s.

(** What the listener of [registerHookEventListeners] does with an event. *)
Inductive Feedback : Type :=
| Log_warn (message : string) (arg : string)
| Notification_warn (message : string)
| Log_debug (message : string).

(** The listener registered on [onHookExecuted]. *)
Definition listener (event : IHookExecutionEvent) : list Feedback :=
  if negb (success (result event))
  then
    Log_warn ("Hook execution failed for "
              +:+ HookType_value (event_hookType event) +:+ ":")
             (stderr (result event))
    :: (if truthy (abortOnFailure (configuration event))
        then [Notification_warn
                ("Hook failed for " +:+ HookType_value (event_hookType event)
                 +:+ ": " +:+ stderr (result event))]
        else [])
  else
    [Log_debug ("Hook executed successfully for "
                +:+ HookType_value (event_hookType event)
                +:+ ": " +:+ stdout (result event))].

(** The notifications among some feedback. *)
Definition notifications (feedback : list Feedback) : list string :=
  omap (fun f => match f with
                 | Notification_warn message => Some message
                 | _ => None
                 end) feedback.

End HooksWorkbenchContribution.


(** * The hooks service of the chat: [chat/common/hooksServiceImpl.ts]

    A second, separate service: one hook per hook type, read from the
    settings at each call. *)

Module ChatHooksService.

(** [v.key] on a truthy value, where the read cannot throw. *)
Definition member (v : JSValue) (key : string) : JSValue :=
  match get v key with
  | Normal x => x
  | Throw _ => JUndefined
  end.

Record IHookResult : Type := {
  success : bool;
  shouldContinue : bool;
  modifiedMessage : option string;
  modifiedContext : option (list JSValue);
  error : option string
}.

(** What the call sees of its [CancellationToken]: whether cancellation was
    requested when [executeHook] tests it, and whether it is requested while
    the simulated execution waits for its timer. *)
Record CancellationToken : Type := {
  isCancellationRequested : bool;
  cancelledWhileRunning : bool
}.

Section Service.

(** [Number::toString], left open. *)
Variable Number_toString : Z -> string.

(** [this.configurationService.getValue<any>(key)] *)
Variable getValue : string -> JSValue.

(** [isElectronSandboxed()] of [base/common/platform.js] *)
Variable isElectronSandboxed : bool.

(** The hook context, and
    [Buffer.from(JSON.stringify(context)).toString('base64')] on it, left
    open; it may throw. *)
Context {IHookContext : Type}.

Variable contextArg_of : IHookContext -> Completion string.

Definition getHookConfiguration (hookType : string) : JSValue :=
  let config := getValue ("chat.hooks." +:+ hookType) in
  if truthy config
     && match member config "enabled" with
        | JBool false => false
        | _ => true
        end
  then config
  else JUndefined.

(** The template literals convert their parts from left to right, so the
    script or the command is converted before [args.join] is called. *)
Definition buildCommand (hookConfig : JSValue) (context : IHookContext)
    : Completion string :=
  match contextArg_of context with
  | Throw e => Throw e
  | Normal contextArg =>
      if truthy (member hookConfig "script")
      then
        match String_ Number_toString (member hookConfig "script") with
        | Throw e => Throw e
        | Normal script => Normal (script +:+ " " +:+ contextArg)
        end
      else if truthy (member hookConfig "command")
      then
        let args := js_or (member hookConfig "args") (JArray []) in
        match String_ Number_toString (member hookConfig "command") with
        | Throw e => Throw e
        | Normal command =>
            match args with
            | JArray args =>
                match Array_join Number_toString " " args with
                | Throw e => Throw e
                | Normal joined =>
                    Normal (command +:+ " " +:+ joined +:+ " " +:+ contextArg)
                end
            | _ => Throw (JSError "args.join is not a function")
            end
        end
      else Throw (JSError "Hook configuration must specify either script or command")
  end.

Definition simulateHookExecution (command : string) (timeout : JSValue)
    (token : CancellationToken) : IHookResult :=
  if cancelledWhileRunning token
  then {| success := false; shouldContinue := false; modifiedMessage := None;
          modifiedContext := None; error := Some "Hook execution cancelled" |}
  else {| success := true; shouldContinue := true; modifiedMessage := None;
          modifiedContext := None; error := None |}.

Definition executeHook (hookType : string) (context : IHookContext)
    (token : CancellationToken) : IHookResult :=
  let hookConfig := getHookConfiguration hookType in
  if negb (truthy hookConfig)
  then {| success := true; shouldContinue := true; modifiedMessage := None;
          modifiedContext := None; error := None |}
  else if isElectronSandboxed
  then {| success := true; shouldContinue := true; modifiedMessage := None;
          modifiedContext := None; error := None |}
  else
    let timeout := js_or (member hookConfig "timeout") (JNumber 5000) in
    match buildCommand hookConfig context with
    | Throw thrown =>
        {| success := false; shouldContinue := true; modifiedMessage := None;
           modifiedContext := None; error := Some (error_text thrown) |}
    | Normal command =>
        if isCancellationRequested token
        then {| success := false; shouldContinue := false; modifiedMessage := None;
                modifiedContext := None; error := Some "Hook execution cancelled" |}
        else simulateHookExecution command timeout token
    end.

Definition executePreCopilotChatPromptHook (context : IHookContext)
    (token : CancellationToken) : IHookResult :=
  executeHook "pre-copilot-chat-prompt" context token.

End Service.
End ChatHooksService.

(** A trimming function for the sample inputs: it strips the ASCII white
    space at both ends. *)
Fixpoint sample_trim_start (s : string) : string :=
  match s with
  | EmptyString => EmptyString
  | String a rest => if Ascii.is_space a then sample_trim_start rest else s
  end.

Definition sample_trim (s : string) : string :=
  String.rev (sample_trim_start (String.rev (sample_trim_start s))).

(** Settings of the chat for the sample inputs: a hook with a script for the
    prompt, a hook with neither script nor command for the context, and a
    hook that is switched off for the response. *)
Definition sample_chat_settings (key : string) : JSValue :=
  if String.eqb key "chat.hooks.pre-copilot-chat-prompt"
  then JObject 61 [("enabled", JBool true); ("script", JString "./test-hook.js");
                   ("timeout", JNumber 3000)]
  else if String.eqb key "chat.hooks.pre-context-attach"
  then JObject 62 [("timeout", JNumber 3000)]
  else if String.eqb key "chat.hooks.post-copilot-response"
  then JObject 63 [("enabled", JBool false); ("script", JString "./after.js")]
  else JUndefined.

(** A stand-in for the encoding of the context, which here is its text. *)
Definition sample_contextArg (context : string) : Completion string :=
  Normal context.

(** * Vocabulary of the properties *)

(** ** States of the registry *)

(** The map sends different hook types to different arrays, and only to
    arrays that have been handed out. Every state the service reaches is
    like this (see [consistent_new], [consistent_registerHook], ...). *)
Definition consistent (s : HooksService) : Prop :=
  (forall t a, _registeredHooks s !! t = Some a -> a < next_loc s) /\
  (forall t t' a, _registeredHooks s !! t = Some a ->
                  _registeredHooks s !! t' = Some a -> t = t').

(** [s'] comes after [s]: what the map holds in [s'] it held in [s], or is an
    array handed out since. *)
Definition evolves (s s' : HooksService) : Prop :=
  next_loc s <= next_loc s' /\
  (forall t a, _registeredHooks s' !! t = Some a ->
               _registeredHooks s !! t = Some a \/ next_loc s <= a).

(** No hook type has the array [a]. *)
Definition detached (a : loc) (s : HooksService) : Prop :=
  forall t, _registeredHooks s !! t <> Some a.

(** ** What the sources declare *)

(** The configurations a source declares for one hook type: under the key
    [hooks], the entries filed under the type's name, an array or a single
    object, and of those the ones that are objects. *)
Definition declared_for (t : HookType) (entry : string * JSValue)
    : list IHookConfiguration :=
  if String.eqb (fst entry) (HookType_value t)
  then omap as_IHookConfiguration (configs_of (snd entry))
  else [].

Definition declared (t : HookType) (config : JSValue) : list IHookConfiguration :=
  match get config "hooks" with
  | Normal config_hooks => flat_map (declared_for t) (Object_entries config_hooks)
  | Throw _ => []
  end.

(** What the file declares for a hook type. *)
Definition declared_by_file (t : HookType) (src : Sources) : list IHookConfiguration :=
  match hooksFile src with
  | Parsed hooksConfig => declared t hooksConfig
  | _ => []
  end.

(** The source has an object under [hooks]: the guard at the top of
    [loadHooksFromConfig] lets it through. *)
Definition has_hooks_object (config : JSValue) : bool :=
  match get config "hooks" with
  | Normal config_hooks => truthy config_hooks && isObject config_hooks
  | Throw _ => false
  end.

Definition settings_supply (src : Sources) : bool :=
  truthy (settings src) && isObject (settings src) && has_hooks_object (settings src).

Definition file_supplies (src : Sources) : bool :=
  match hooksFile src with
  | Parsed hooksConfig => has_hooks_object hooksConfig
  | _ => false
  end.

(** Two values with the same content: equal but for the identities of the
    objects in them. Reading a file again gives such a value. *)
#[warnings="-register-all"]
Inductive same_value : JSValue -> JSValue -> Prop :=
| same_undefined : same_value JUndefined JUndefined
| same_null : same_value JNull JNull
| same_bool (b : bool) : same_value (JBool b) (JBool b)
| same_number (n : Z) : same_value (JNumber n) (JNumber n)
| same_string (s : string) : same_value (JString s) (JString s)
| same_array (l l' : list JSValue) :
    Forall2 same_value l l' -> same_value (JArray l) (JArray l')
| same_props (r r' : nat) (p p' : list (string * JSValue)) :
    Forall2 (fun kv kv' => fst kv = fst kv' /\ same_value (snd kv) (snd kv')) p p' ->
    same_value (JObject r p) (JObject r' p').

(** Two configurations with the same fields, possibly two objects. *)
Definition same_configuration (c c' : IHookConfiguration) : Prop :=
  Forall2 (fun kv kv' => fst kv = fst kv' /\ same_value (snd kv) (snd kv'))
          (props c) (props c').

Definition same_file (f f' : HooksFile) : Prop :=
  match f, f' with
  | NoWorkspaceFolder, NoWorkspaceFolder => True
  | Unreadable, Unreadable => True
  | Parsed v, Parsed v' => same_value v v'
  | _, _ => False
  end.

(** The sources as read at two moments between which neither the settings
    nor the file changed. *)
Definition same_sources (src src' : Sources) : Prop :=
  same_value (settings src) (settings src') /\
  same_file (hooksFile src) (hooksFile src').

(** ** Sequences of calls on the registry *)

(** One call that writes the registry: [registerHook], the first invocation
    of a handle (which runs the closure over some array and configuration),
    [clearHooks], and a reload. *)
Inductive Op : Type :=
| OpRegister (t : HookType) (c : IHookConfiguration)
| OpUnregister (hooks : loc) (c : IHookConfiguration)
| OpClear (t : HookType)
| OpReload (src : Sources).

Definition perform (op : Op) (s : HooksService) : HooksService :=
  match op with
  | OpRegister t c => snd (registerHook t c s)
  | OpUnregister a c => unregister a c s
  | OpClear t => clearHooks t s
  | OpReload src =>
      match loadWorkspaceHooks src s with
      | Normal s' => s'
      | Throw _ => s
      end
  end.

Definition perform_all (ops : list Op) (s : HooksService) : HooksService :=
  fold_left (fun s op => perform op s) ops s.

(** The call takes the list of [t] out of the map: [clearHooks(t)], or a
    reload in which a source gets past the guard and so runs [clear()]. *)
Definition drops_list (t : HookType) (op : Op) : bool :=
  match op with
  | OpClear t' => bool_decide (t' = t)
  | OpReload src => file_supplies src || settings_supply src
  | _ => false
  end.

(** The registry after [registerHook] for each of [hooks], in order. *)
Definition registered (t : HookType) (hooks : list IHookConfiguration) : HooksService :=
  perform_all (map (OpRegister t) hooks) new_HooksService.

(** ** Steps of the execution engine *)

(** The result that goes into the returned array for a settled call. *)
Definition result_of (outcome : Completion IHookResult) : IHookResult :=
  match outcome with
  | Normal result => result
  | Throw error => errorResult error
  end.

(** The two [break] conditions of the loop. *)
Definition stops (hook : IHookConfiguration) (outcome : Completion IHookResult) : bool :=
  match outcome with
  | Normal result => negb (success result) && truthy (abortOnFailure hook)
  | Throw _ => truthy (abortOnFailure hook)
  end.

(** The event of a hook that was executed and of the way its call settled. *)
Definition event_of (hookType : HookType) (context : IHookContext)
    (step : IHookConfiguration * Completion IHookResult) : IHookExecutionEvent :=
  {| event_hookType := hookType;
     configuration := fst step;
     result := result_of (snd step);
     context := context |}.

(** What one turn of the loop does to the outside: the call, then the event. *)
Definition effects_of (hookType : HookType) (context : IHookContext)
    (step : IHookConfiguration * Completion IHookResult) : list Effect :=
  [Executed (fst step) context (snd step);
   Fired {| event_hookType := hookType;
            configuration := fst step;
            result := result_of (snd step);
            context := context |}].

(** The calls of [executeHook] among some effects, and the events fired. *)
Definition executions (effects : list Effect)
    : list (IHookConfiguration * Completion IHookResult) :=
  omap (fun e => match e with
                 | Executed hook _ outcome => Some (hook, outcome)
                 | Fired _ => None
                 end) effects.

Definition events (effects : list Effect) : list IHookExecutionEvent :=
  omap (fun e => match e with
                 | Executed _ _ _ => None
                 | Fired ev => Some ev
                 end) effects.

Section Steps.

Context {World : Type}.

Variable runner : Runner World.

Variable fire : Listeners World.

Variable hookType : HookType.

Variable context : IHookContext.

(** One turn for [hook] in the state [st]: [hook] is executed in [st], then
    its event is handed to the listeners in the state the execution left.
    The turn gives the hook with the way its call settled, and the state the
    listeners left. *)
Definition turn (hook : IHookConfiguration) (st : HooksService * World)
    : (IHookConfiguration * Completion IHookResult) * (HooksService * World) :=
  let run := runner hook context st in
  ((hook, fst run), fire (event_of hookType context (hook, fst run)) (snd run)).

(** [turns hooks index st steps st']: starting in [st], consecutive turns
    for the entries the array has at [index], [index + 1], ... when their
    turn comes give [steps], one after the other, each turn starting in the
    state the one before left, and the last one leaves [st']. *)
Fixpoint turns (hooks : option loc) (index : nat) (st : HooksService * World)
    (steps : list (IHookConfiguration * Completion IHookResult))
    (st' : HooksService * World) : Prop :=
  match steps with
  | [] => st' = st
  | step :: rest =>
      read_hooks hooks (fst st) !! index = Some (fst step) /\
      fst (turn (fst step) st) = step /\
      turns hooks (S index) (snd (turn (fst step) st)) rest st'
  end.

(** The turns one call takes from the entry at [index] on, with the state
    it ends in; [None] when [fuel] turns do not suffice. *)
Fixpoint steps_from (fuel : nat) (hooks : option loc) (index : nat)
    (st : HooksService * World)
    : option (list (IHookConfiguration * Completion IHookResult)
              * (HooksService * World)) :=
  match read_hooks hooks (fst st) !! index with
  | None => Some ([], st)
  | Some hook =>
      match fuel with
      | 0 => None
      | S fuel =>
          if stops hook (fst (runner hook context st))
          then Some ([fst (turn hook st)], snd (turn hook st))
          else
            match steps_from fuel hooks (S index) (snd (turn hook st)) with
            | Some (steps, st') => Some (fst (turn hook st) :: steps, st')
            | None => None
            end
      end
  end.

(** The execution of a hook and the listeners leave the array [hooks] of the
    call as it is. *)
Definition quiet (hooks : option loc) : Prop :=
  (forall hook st,
     read_hooks hooks (fst (snd (runner hook context st)))
     = read_hooks hooks (fst st)) /\
  (forall event st,
     read_hooks hooks (fst (fire event st)) = read_hooks hooks (fst st)).

(** The execution of a hook and the listeners do not make the array [hooks]
    of the call longer than [n] entries: when it has at most [n] before, it
    has at most [n] afterwards. *)
Definition never_longer (hooks : option loc) (n : nat) : Prop :=
  (forall hook st,
     length (read_hooks hooks (fst st)) <= n ->
     length (read_hooks hooks (fst (snd (runner hook context st)))) <= n) /\
  (forall event st,
     length (read_hooks hooks (fst st)) <= n ->
     length (read_hooks hooks (fst (fire event st))) <= n).

(** Turns for the hooks of a list that is fixed beforehand, up to the first
    one that meets a [break] condition. *)
Fixpoint run_steps (hooks : list IHookConfiguration) (st : HooksService * World)
    : list (IHookConfiguration * Completion IHookResult) * (HooksService * World) :=
  match hooks with
  | [] => ([], st)
  | hook :: rest =>
      if stops hook (fst (runner hook context st))
      then ([fst (turn hook st)], snd (turn hook st))
      else (fst (turn hook st) :: fst (run_steps rest (snd (turn hook st))),
            snd (run_steps rest (snd (turn hook st))))
  end.

End Steps.

(** ** Sample inputs *)

Definition lint_hook : IHookConfiguration :=
  {| ref := 12; props := [("command", JString "lint")] |}.

Definition script_hook : IHookConfiguration :=
  {| ref := 22;
     props := [("script", JString "./a.sh"); ("timeout", JNumber 1000);
               ("abortOnFailure", JBool true)] |}.

(** Both [script] and [command]. *)
Definition ambiguous_hook : IHookConfiguration :=
  {| ref := 31;
     props := [("script", JString "./a.sh"); ("command", JString "echo")] |}.

(** Neither [script] nor [command]. *)
Definition empty_hook : IHookConfiguration := {| ref := 32; props := [] |}.

(** [{"script": {"toString": 1}, "abortOnFailure": true}], as [hooks.json]
    can give it: the script is an object that has no text. *)
Definition failing_hook : IHookConfiguration :=
  {| ref := 41;
     props := [("script", JObject 410 [("toString", JNumber 1)]);
               ("abortOnFailure", JBool true)] |}.

(** [{"script": {"toString": 1}}] *)
Definition tolerated_hook : IHookConfiguration :=
  {| ref := 42; props := [("script", JObject 420 [("toString", JNumber 1)])] |}.

(** [{ command: 'false', abortOnFailure: true }], the first hook of the test
    [should handle hook execution with abortOnFailure] of the service. *)
Definition false_hook : IHookConfiguration :=
  {| ref := 43; props := [("command", JString "false"); ("abortOnFailure", JBool true)] |}.

Definition echo_hook : IHookConfiguration :=
  {| ref := 44; props := [("command", JString "echo"); ("args", JArray [JString "b"])] |}.

(** Settings with one [pre-commit] hook under [hooks]. *)
Definition sample_settings : JSValue :=
  JObject 10 [("hooks", JObject 11 [("pre-commit", JArray [JObject 12 (props lint_hook)])])].

(** [{"hooks":{"pre-commit":[{"script":"./a.sh","timeout":1000,"abortOnFailure":true}]}}] *)
Definition sample_file : JSValue :=
  JObject 20 [("hooks", JObject 21 [("pre-commit", JArray [JObject 22 (props script_hook)])])].

Definition both_sources : Sources :=
  {| settings := sample_settings; hooksFile := Parsed sample_file |}.

(** [both_sources] read a second time: the same content in new objects. *)
Definition both_sources_again : Sources :=
  {| settings :=
       JObject 110 [("hooks", JObject 111 [("pre-commit", JArray [JObject 112 (props lint_hook)])])];
     hooksFile :=
       Parsed (JObject 120 [("hooks", JObject 121 [("pre-commit", JArray [JObject 122 (props script_hook)])])]) |}.

Definition file_only : Sources :=
  {| settings := JUndefined; hooksFile := Parsed sample_file |}.

(** The workspace of [file_only] after [.vscode/hooks.json] was deleted. *)
Definition file_deleted : Sources :=
  {| settings := JUndefined; hooksFile := Unreadable |}.

(** A workspace whose [.vscode/hooks.json] is
    [{"hooks": {"pre-push": [{"script": {"toString": 1}}]}}]. *)
Definition textless_script_file : Sources :=
  {| settings := JUndefined;
     hooksFile :=
       Parsed (JObject 40 [("hooks",
                 JObject 400 [("pre-push", JArray [JObject 42 (props tolerated_hook)])])]) |}.

Definition sample_context (t : HookType) : IHookContext :=
  {| hookType := t; workspaceUri := None; data := JUndefined; fileUri := None |}.

(** A platform whose outside state is the clock, in milliseconds. The clock
    is one millisecond further each time it is read; a wait moves it on by
    the time waited for, and nothing else runs meanwhile. *)
Definition sample_platform : Platform Z :=
  {| Number_toString := pretty;
     Date_now := fun now => (now, (now + 1)%Z);
     await_timeout := fun ms st => (fst st, (snd st + ms)%Z);
     await_settled := fun st => st |}.

(** No listener is registered on [onHookExecuted]. *)
Definition no_listener {World : Type} : Listeners World := fun _ st => st.

(** A listener that, at the event of the hook [target], disposes the handle [d]. *)
Definition disposing_listener {World : Type} (target : IHookConfiguration)
    (d : IDisposable) : Listeners World :=
  fun event st =>
    if same_object (configuration event) target
    then (snd (dispose d (fst st)), snd st)
    else st.

(** [script] and [command] are both there, or neither is. *)
Definition is_present (v : JSValue) : bool :=
  match v with
  | JUndefined => false
  | _ => true
  end.

Definition malformed (hook : IHookConfiguration) : bool :=
  Bool.eqb (is_present (script hook)) (is_present (command hook)).

(** ** More vocabulary *)

(** The list without its first entry that is the object [c]. *)
Fixpoint remove_first (c : IHookConfiguration) (l : list IHookConfiguration)
    : list IHookConfiguration :=
  match l with
  | [] => []
  | y :: rest => if same_object y c then rest else y :: remove_first c rest
  end.

(** The text the template literals of [executeHook] make of a hook. *)
Definition text_of (Number_toString : Z -> string) (hook : IHookConfiguration)
    : Completion string :=
  String_ Number_toString (js_or (script hook) (command hook)).

(** The script of the hook, or else its command, has a text. *)
Definition has_text (Number_toString : Z -> string) (hook : IHookConfiguration)
    : bool :=
  match text_of Number_toString hook with
  | Normal _ => true
  | Throw _ => false
  end.

(** The step is an execution of the hook that gave the result the body of
    [executeHook] builds when the hook has a text. *)
Definition simulated (Number_toString : Z -> string) (hook : IHookConfiguration)
    (step : IHookConfiguration * Completion IHookResult) : Prop :=
  exists text t,
    text_of Number_toString hook = Normal text /\
    snd step = Normal {| exitCode := 0;
                         stdout := "Simulated execution of hook: " +:+ text;
                         stderr := "";
                         success := true;
                         executionTime := t |}.

(** The code that runs while [executeHook] waits and the listeners leave the
    array [hooks] as it is. *)
Definition quiet_platform {World : Type} (platform : Platform World)
    (fire : Listeners World) (hooks : option loc) : Prop :=
  (forall ms st, read_hooks hooks (fst (await_timeout platform ms st))
                 = read_hooks hooks (fst st)) /\
  (forall st, read_hooks hooks (fst (await_settled platform st))
              = read_hooks hooks (fst st)) /\
  (forall event st, read_hooks hooks (fst (fire event st))
                    = read_hooks hooks (fst st)).

(** * Properties *)

(** ** Arrays: [indexOf] and [splice] *)

Lemma indexOf_ge (l : list IHookConfiguration) (x : IHookConfiguration) :
  (-1 <= indexOf l x)%Z.
Proof.
  induction l as [|y rest IH]; simpl; [lia|].
  destruct (same_object y x); [lia|].
  destruct (indexOf rest x =? -1)%Z; lia.
Qed.

Lemma indexOf_absent (l : list IHookConfiguration) (x : IHookConfiguration) :
  indexOf l x = (-1)%Z -> Forall (fun y => same_object y x = false) l.
Proof.
  induction l as [|y rest IH]; simpl; intros H; [constructor|].
  destruct (same_object y x) eqn:E; [lia|].
  destruct (indexOf rest x =? -1)%Z eqn:E'.
  - constructor; [exact E|]. apply IH. lia.
  - pose proof (indexOf_ge rest x). lia.
Qed.

(** When [indexOf] finds the object, it finds its first occurrence. *)
Lemma indexOf_found (l : list IHookConfiguration) (x : IHookConfiguration) :
  indexOf l x <> (-1)%Z ->
  exists before y after,
    l = before ++ y :: after /\
    same_object y x = true /\
    Forall (fun z => same_object z x = false) before /\
    indexOf l x = Z.of_nat (length before).
Proof.
  induction l as [|y rest IH]; simpl; intros H; [lia|].
  destruct (same_object y x) eqn:E.
  - exists [], y, rest. repeat split; auto.
  - destruct (indexOf rest x =? -1)%Z eqn:E'; [lia|].
    destruct IH as (before & y' & after & -> & Hy & Hb & Hi); [lia|].
    exists (y :: before), y', after. repeat split; auto.
    simpl length. lia.
Qed.

Lemma splice_one {A : Type} (before after : list A) (y : A) :
  splice (before ++ y :: after) (Z.of_nat (length before)) 1 = before ++ after.
Proof.
  unfold splice. rewrite length_app. simpl length.
  destruct (Z.ltb_spec (Z.of_nat (length before)) 0); [lia|].
  replace (Z.min (Z.of_nat (length before)) (Z.of_nat (length before + S (length after))))
    with (Z.of_nat (length before)) by lia.
  replace (Z.of_nat (length before) +
           Z.min (Z.max 1 0) (Z.of_nat (length before + S (length after)) - Z.of_nat (length before)))%Z
    with (Z.of_nat (S (length before))) by lia.
  rewrite !Nat2Z.id.
  rewrite take_app_length.
  replace (before ++ y :: after) with ((before ++ [y]) ++ after)
    by (rewrite <- app_assoc; reflexivity).
  rewrite drop_app_length'; [reflexivity|].
  rewrite length_app. simpl. lia.
Qed.

(** ** The registry *)

Lemma consistent_new : consistent new_HooksService.
Proof. split; intros *; simpl; rewrite lookup_empty; discriminate. Qed.

Lemma evolves_refl (s : HooksService) : evolves s s.
Proof. split; [lia|auto]. Qed.

Lemma evolves_trans (s1 s2 s3 : HooksService) :
  evolves s1 s2 -> evolves s2 s3 -> evolves s1 s3.
Proof.
  intros [H1 H1'] [H2 H2']. split; [lia|].
  intros t a H3. destruct (H2' _ _ H3) as [H|H]; [|right; lia].
  destruct (H1' _ _ H) as [H'|H']; auto.
Qed.

Lemma hasHooks_getHooks (t : HookType) (s : HooksService) :
  hasHooks t s = false <-> getHooks t s = [].
Proof.
  unfold hasHooks, getHooks.
  destruct (_registeredHooks s !! t) as [a|]; [|tauto].
  destruct (array_read s a); simpl; split; intros; try discriminate; try reflexivity.
Qed.

Lemma array_read_write (s : HooksService) (a b : loc) (l : list IHookConfiguration) :
  array_read (array_write s a l) b = if decide (a = b) then l else array_read s b.
Proof.
  unfold array_read, array_write; simpl.
  rewrite lookup_insert. destruct (decide (a = b)); reflexivity.
Qed.

Lemma getHooks_registerHook (t : HookType) (c : IHookConfiguration) (s : HooksService) :
  getHooks t (snd (registerHook t c s)) = getHooks t s ++ [c].
Proof.
  unfold registerHook, getHooks.
  destruct (_registeredHooks s !! t) as [a|] eqn:E; simpl.
  - rewrite E, array_read_write, decide_True by reflexivity. reflexivity.
  - rewrite lookup_insert_eq, array_read_write, decide_True by reflexivity.
    unfold array_read; simpl. rewrite lookup_insert_eq. reflexivity.
Qed.

Lemma getHooks_registerHook_other (t t' : HookType) (c : IHookConfiguration)
    (s : HooksService) :
  consistent s -> t' <> t ->
  getHooks t' (snd (registerHook t c s)) = getHooks t' s.
Proof.
  intros [Hb Hi] Hne. unfold registerHook, getHooks.
  destruct (_registeredHooks s !! t) as [a|] eqn:E; simpl.
  - destruct (_registeredHooks s !! t') as [a'|] eqn:E'; [|reflexivity].
    rewrite array_read_write, decide_False; [reflexivity|].
    intros ->. apply Hne. eauto.
  - rewrite lookup_insert_ne by congruence.
    destruct (_registeredHooks s !! t') as [a'|] eqn:E'; [|reflexivity].
    rewrite array_read_write, decide_False by (apply Hb in E'; lia).
    unfold array_read; simpl.
    rewrite lookup_insert_ne by (apply Hb in E'; lia). reflexivity.
Qed.

Lemma consistent_registerHook (t : HookType) (c : IHookConfiguration) (s : HooksService) :
  consistent s -> consistent (snd (registerHook t c s)).
Proof.
  intros [Hb Hi]. unfold registerHook.
  destruct (_registeredHooks s !! t) as [a|] eqn:E; simpl.
  - split; simpl; eauto.
  - split; simpl.
    + intros t1 a1. rewrite lookup_insert. case_decide.
      * intros [= <-]. lia.
      * intros H1. apply Hb in H1. lia.
    + intros t1 t2 a1. rewrite !lookup_insert.
      repeat case_decide; subst; try congruence.
      * intros [= <-] H2. apply Hb in H2. lia.
      * intros H1 [= <-]. apply Hb in H1. lia.
      * eauto.
Qed.

Lemma evolves_registerHook (t : HookType) (c : IHookConfiguration) (s : HooksService) :
  evolves s (snd (registerHook t c s)).
Proof.
  unfold registerHook.
  destruct (_registeredHooks s !! t) as [a|] eqn:E; simpl.
  - split; simpl; [lia|auto].
  - split; simpl; [lia|].
    intros t1 a1. rewrite lookup_insert. case_decide.
    + intros [= <-]. right. lia.
    + auto.
Qed.

Lemma hasHooks_registerHook (t : HookType) (c : IHookConfiguration) (s : HooksService) :
  hasHooks t (snd (registerHook t c s)) = true.
Proof.
  destruct (hasHooks t (snd (registerHook t c s))) eqn:E; [reflexivity|].
  apply hasHooks_getHooks in E. rewrite getHooks_registerHook in E.
  destruct (getHooks t s); discriminate.
Qed.

(** The closure [registerHook] returns writes one array and nothing else. *)
Lemma registered_unregister (a : loc) (c : IHookConfiguration) (s : HooksService) :
  _registeredHooks (unregister a c s) = _registeredHooks s /\
  next_loc (unregister a c s) = next_loc s.
Proof. unfold unregister. destruct (negb _); split; reflexivity. Qed.

Lemma getHooks_unregister_other (a : loc) (c : IHookConfiguration)
    (t : HookType) (s : HooksService) :
  _registeredHooks s !! t <> Some a ->
  getHooks t (unregister a c s) = getHooks t s.
Proof.
  intros Hne. unfold getHooks.
  rewrite (proj1 (registered_unregister a c s)).
  destruct (_registeredHooks s !! t) as [a'|] eqn:E; [|reflexivity].
  unfold unregister. destruct (negb _); [|reflexivity].
  rewrite array_read_write, decide_False by congruence. reflexivity.
Qed.

(** On the array the map holds for [t], the closure takes out the first
    entry that is the object [c], or leaves the state alone when there is none. *)
Lemma getHooks_unregister (a : loc) (c : IHookConfiguration)
    (t : HookType) (s : HooksService) :
  _registeredHooks s !! t = Some a ->
  (exists before y after,
      getHooks t s = before ++ y :: after /\
      same_object y c = true /\
      Forall (fun z => same_object z c = false) before /\
      getHooks t (unregister a c s) = before ++ after) \/
  (Forall (fun z => same_object z c = false) (getHooks t s) /\
   unregister a c s = s).
Proof.
  intros E. unfold getHooks.
  rewrite (proj1 (registered_unregister a c s)), E.
  unfold unregister.
  destruct (Z.eqb_spec (indexOf (array_read s a) c) (-1)) as [Hi|Hi]; simpl.
  - right. split; [|reflexivity]. apply indexOf_absent, Hi.
  - left. destruct (indexOf_found _ _ Hi) as (before & y & after & Hl & Hy & Hb & Hidx).
    exists before, y, after. repeat split; auto.
    rewrite array_read_write, decide_True by reflexivity.
    rewrite Hidx, Hl. apply splice_one.
Qed.

Lemma same_object_refl (c : IHookConfiguration) : same_object c c = true.
Proof. apply Nat.eqb_refl. Qed.

Lemma consistent_unregister (a : loc) (c : IHookConfiguration) (s : HooksService) :
  consistent s -> consistent (unregister a c s).
Proof.
  unfold consistent.
  destruct (registered_unregister a c s) as [-> ->]. auto.
Qed.

Lemma evolves_unregister (a : loc) (c : IHookConfiguration) (s : HooksService) :
  evolves s (unregister a c s).
Proof.
  unfold evolves.
  destruct (registered_unregister a c s) as [-> ->]. split; [lia|auto].
Qed.

Lemma consistent_clearHooks (t : HookType) (s : HooksService) :
  consistent s -> consistent (clearHooks t s).
Proof.
  intros [Hb Hi]. split; simpl.
  - intros t1 a H. apply lookup_delete_Some in H as [_ H]. eauto.
  - intros t1 t2 a H1 H2.
    apply lookup_delete_Some in H1 as [_ H1].
    apply lookup_delete_Some in H2 as [_ H2]. eauto.
Qed.

Lemma evolves_clearHooks (t : HookType) (s : HooksService) :
  evolves s (clearHooks t s).
Proof.
  split; simpl; [lia|].
  intros t1 a H. apply lookup_delete_Some in H as [_ H]. auto.
Qed.

Lemma consistent_Map_clear (s : HooksService) : consistent (Map_clear s).
Proof. split; intros *; simpl; rewrite lookup_empty; discriminate. Qed.

Lemma evolves_Map_clear (s : HooksService) : evolves s (Map_clear s).
Proof. split; simpl; [lia|]. intros t a. rewrite lookup_empty. discriminate. Qed.

Lemma evolves_Map_clear_mono (s s1 s2 : HooksService) :
  evolves s s1 -> evolves (Map_clear s1) s2 -> evolves (Map_clear s) s2.
Proof.
  intros [H1 _] [H2 H2']. simpl in *. split; simpl; [lia|].
  intros t a H. destruct (H2' _ _ H) as [H'|H'].
  - rewrite lookup_empty in H'. discriminate.
  - right. lia.
Qed.

Lemma getHooks_Map_clear (t : HookType) (s : HooksService) :
  getHooks t (Map_clear s) = [].
Proof. unfold getHooks; simpl. rewrite lookup_empty. reflexivity. Qed.

Lemma hasHooks_ext (t : HookType) (s s' : HooksService) :
  getHooks t s = getHooks t s' -> hasHooks t s = hasHooks t s'.
Proof.
  intros H.
  destruct (hasHooks t s) eqn:E, (hasHooks t s') eqn:E'; try reflexivity.
  - apply hasHooks_getHooks in E'. rewrite <- H in E'.
    apply hasHooks_getHooks in E'. congruence.
  - apply hasHooks_getHooks in E. rewrite H in E.
    apply hasHooks_getHooks in E. congruence.
Qed.

(** The handle of [registerHook] closes over the array the map holds for the
    hook type right after the call. *)
Lemma registerHook_handle (t : HookType) (c : IHookConfiguration) (s : HooksService) :
  consistent s ->
  exists a,
    fst (registerHook t c s) = toDisposable (unregister a c) /\
    _registeredHooks (snd (registerHook t c s)) !! t = Some a /\
    a < next_loc (snd (registerHook t c s)).
Proof.
  intros [Hb _]. unfold registerHook.
  destruct (_registeredHooks s !! t) as [a|] eqn:E; simpl.
  - exists a. split; [reflexivity|]. split; [exact E|]. eapply Hb, E.
  - exists (next_loc s). split; [reflexivity|].
    split; [apply lookup_insert_eq|lia].
Qed.

(** ** The loader *)

Lemma as_HookType_value (t : HookType) : as_HookType (HookType_value t) = Some t.
Proof. destruct t; reflexivity. Qed.

Lemma as_HookType_Some (name : string) (t : HookType) :
  as_HookType name = Some t -> name = HookType_value t.
Proof.
  unfold as_HookType. intros H.
  apply find_some in H as [_ H]. apply String.eqb_eq in H. congruence.
Qed.

Lemma as_HookType_None (name : string) (t : HookType) :
  as_HookType name = None -> name <> HookType_value t.
Proof. intros H ->. rewrite as_HookType_value in H. discriminate. Qed.

Lemma registerConfigs_spec (t : HookType) (configs : list JSValue) (s : HooksService) :
  consistent s ->
  consistent (registerConfigs t configs s) /\
  evolves s (registerConfigs t configs s) /\
  forall t', getHooks t' (registerConfigs t configs s) =
             getHooks t' s ++
             (if decide (t' = t) then omap as_IHookConfiguration configs else []).
Proof.
  revert s. unfold registerConfigs.
  induction configs as [|v rest IH]; intros s Hs; simpl.
  - split; [exact Hs|]. split; [apply evolves_refl|].
    intros t'. case_decide; rewrite app_nil_r; reflexivity.
  - destruct (as_IHookConfiguration v) as [c|] eqn:E.
    + destruct (IH (snd (registerHook t c s))) as (Hc & He & Hg);
        [apply consistent_registerHook, Hs|].
      split; [exact Hc|]. split.
      * eapply evolves_trans; [apply evolves_registerHook|exact He].
      * intros t'. rewrite Hg. case_decide as Ht.
        -- subst t'. rewrite getHooks_registerHook, <- app_assoc. reflexivity.
        -- rewrite getHooks_registerHook_other by assumption. reflexivity.
    + apply IH, Hs.
Qed.

Lemma registerEntries_spec (entries : list (string * JSValue)) (s : HooksService) :
  consistent s ->
  consistent (registerEntries entries s) /\
  evolves s (registerEntries entries s) /\
  forall t, getHooks t (registerEntries entries s) =
            getHooks t s ++ flat_map (declared_for t) entries.
Proof.
  revert s. unfold registerEntries.
  induction entries as [|[name hookConfigs] rest IH]; intros s Hs; simpl.
  - split; [exact Hs|]. split; [apply evolves_refl|].
    intros t. rewrite app_nil_r. reflexivity.
  - destruct (as_HookType name) as [t0|] eqn:E.
    + destruct (registerConfigs_spec t0 (configs_of hookConfigs) s Hs) as (Hc & He & Hg).
      destruct (IH _ Hc) as (Hc' & He' & Hg').
      split; [exact Hc'|]. split; [eapply evolves_trans; eassumption|].
      intros t. rewrite Hg', Hg, <- app_assoc. f_equal. f_equal.
      unfold declared_for; simpl. apply as_HookType_Some in E. subst name.
      case_decide as Ht.
      * subst. rewrite String.eqb_refl. reflexivity.
      * destruct (String.eqb_spec (HookType_value t0) (HookType_value t)) as [Heq|]; [|reflexivity].
        exfalso. apply Ht. destruct t, t0; simpl in Heq; congruence.
    + destruct (IH _ Hs) as (Hc' & He' & Hg').
      split; [exact Hc'|]. split; [exact He'|].
      intros t. rewrite Hg'. f_equal.
      unfold declared_for; simpl.
      destruct (String.eqb_spec name (HookType_value t)) as [Heq|]; [|reflexivity].
      exfalso. eapply as_HookType_None; eassumption.
Qed.

Lemma has_hooks_object_isObject (config : JSValue) :
  has_hooks_object config = true -> truthy config && isObject config = true.
Proof. destruct config; simpl; intros H; try discriminate; reflexivity. Qed.

Lemma loadHooksFromConfig_supplied (config : JSValue) (s : HooksService) :
  has_hooks_object config = true ->
  exists s', loadHooksFromConfig config s = Normal s' /\
             consistent s' /\ evolves (Map_clear s) s' /\
             forall t, getHooks t s' = declared t config.
Proof.
  unfold has_hooks_object, loadHooksFromConfig, declared.
  destruct (get config "hooks") as [config_hooks|]; [|discriminate].
  intros H. apply andb_true_iff in H as [-> ->]. simpl.
  destruct (registerEntries_spec (Object_entries config_hooks) (Map_clear s))
    as (Hc & He & Hg); [apply consistent_Map_clear|].
  eexists. split; [reflexivity|]. split; [exact Hc|]. split; [exact He|].
  intros t. rewrite Hg, getHooks_Map_clear. reflexivity.
Qed.

Lemma loadHooksFromConfig_not_supplied (config : JSValue) (s : HooksService) :
  has_hooks_object config = false ->
  loadHooksFromConfig config s = Normal s \/
  exists error, loadHooksFromConfig config s = Throw error.
Proof.
  unfold has_hooks_object, loadHooksFromConfig.
  destruct (get config "hooks") as [config_hooks|error]; [|eauto].
  intros H. left.
  destruct (truthy config_hooks), (isObject config_hooks); try discriminate; reflexivity.
Qed.

(** The first call, on the settings, is guarded by [isObject(config)] and
    cannot throw. *)
Lemma loadHooksFromConfig_settings (src : Sources) (s : HooksService) :
  exists s1,
    (if truthy (settings src) && isObject (settings src)
     then loadHooksFromConfig (settings src) s
     else Normal s) = Normal s1 /\
    if settings_supply src
    then consistent s1 /\ evolves (Map_clear s) s1 /\
         forall t, getHooks t s1 = declared t (settings src)
    else s1 = s.
Proof.
  unfold settings_supply.
  destruct (has_hooks_object (settings src)) eqn:E.
  - rewrite (has_hooks_object_isObject _ E). simpl.
    destruct (loadHooksFromConfig_supplied _ s E) as (s1 & H1 & H2). eauto.
  - rewrite andb_false_r.
    destruct (truthy (settings src) && isObject (settings src)) eqn:G; [|eauto].
    destruct (loadHooksFromConfig_not_supplied _ s E) as [H|[error H]]; [eauto|].
    exfalso. unfold loadHooksFromConfig in H.
    destruct (settings src); simpl in G; try discriminate.
    simpl in H. destruct (_ || _); discriminate.
Qed.

(** [loadWorkspaceHooks] always completes, and the registry it leaves is
    decided by the last source that has an object under [hooks]. *)
Lemma loadWorkspaceHooks_cases (src : Sources) (s : HooksService) :
  exists s', loadWorkspaceHooks src s = Normal s' /\ evolves s s' /\
    if file_supplies src
    then consistent s' /\ evolves (Map_clear s) s' /\
         forall t, getHooks t s' = declared_by_file t src
    else if settings_supply src
         then consistent s' /\ evolves (Map_clear s) s' /\
              forall t, getHooks t s' = declared t (settings src)
         else s' = s.
Proof.
  unfold loadWorkspaceHooks, file_supplies, declared_by_file.
  destruct (loadHooksFromConfig_settings src s) as (s1 & -> & H1).
  assert (He1 : evolves s s1).
  { destruct (settings_supply src); [|subst; apply evolves_refl].
    eapply evolves_trans; [apply evolves_Map_clear|tauto]. }
  destruct (hooksFile src) as [| |hooksConfig].
  - exists s1. split; [reflexivity|]. split; [exact He1|].
    destruct (settings_supply src); tauto.
  - exists s1. split; [reflexivity|]. split; [exact He1|].
    destruct (settings_supply src); tauto.
  - destruct (has_hooks_object hooksConfig) eqn:E.
    + destruct (loadHooksFromConfig_supplied _ s1 E) as (s2 & -> & Hc & He & Hg).
      exists s2. split; [reflexivity|].
      assert (He2 : evolves (Map_clear s) s2)
        by (eapply evolves_Map_clear_mono; eassumption).
      split; [|auto].
      eapply evolves_trans; [apply evolves_Map_clear|exact He2].
    + exists s1.
      destruct (loadHooksFromConfig_not_supplied _ s1 E) as [->|[error ->]];
        (split; [reflexivity|]); (split; [exact He1|]);
        destruct (settings_supply src); tauto.
Qed.

Lemma consistent_loadWorkspaceHooks (src : Sources) (s s' : HooksService) :
  consistent s -> loadWorkspaceHooks src s = Normal s' -> consistent s'.
Proof.
  intros Hs H.
  destruct (loadWorkspaceHooks_cases src s) as (s'' & H' & _ & Hc).
  rewrite H in H'. injection H' as <-.
  destruct (file_supplies src); [tauto|].
  destruct (settings_supply src); [tauto|]. subst. exact Hs.
Qed.

Lemma declared_not_supplied (t : HookType) (config : JSValue) :
  has_hooks_object config = false -> declared t config = [].
Proof.
  unfold has_hooks_object, declared.
  destruct (get config "hooks") as [config_hooks|]; [|reflexivity].
  destruct config_hooks; simpl; intros H; try reflexivity. discriminate.
Qed.

Lemma same_value_refl (v : JSValue) : same_value v v.
Proof.
  revert v.
  exact (fix refl (v : JSValue) : same_value v v :=
    match v with
    | JUndefined => same_undefined
    | JNull => same_null
    | JBool b => same_bool b
    | JNumber n => same_number n
    | JString s => same_string s
    | JArray l =>
        same_array l l
          ((fix all (l : list JSValue) : Forall2 same_value l l :=
              match l with
              | [] => List.Forall2_nil _
              | x :: rest => List.Forall2_cons _ _ (refl x) (all rest)
              end) l)
    | JObject r p =>
        same_props r r p p
          ((fix all (p : list (string * JSValue))
              : Forall2 (fun kv kv' => fst kv = fst kv' /\ same_value (snd kv) (snd kv')) p p :=
              match p with
              | [] => List.Forall2_nil _
              | kv :: rest =>
                  List.Forall2_cons _ _ (conj eq_refl (refl (snd kv))) (all rest)
              end) p)
    end).
Qed.

Lemma same_configuration_refl (l : list IHookConfiguration) :
  Forall2 same_configuration l l.
Proof.
  induction l as [|c rest IH]; constructor; [|exact IH].
  pose proof (same_value_refl (JObject 0 (props c))) as H.
  inversion H; subst. assumption.
Qed.

Lemma same_value_tests (v v' : JSValue) :
  same_value v v' ->
  truthy v = truthy v' /\ isObject v = isObject v'.
Proof. intros H. destruct H; simpl; auto. Qed.

Lemma same_value_lookup_prop (key : string) (p p' : list (string * JSValue)) :
  Forall2 (fun kv kv' => fst kv = fst kv' /\ same_value (snd kv) (snd kv')) p p' ->
  same_value (lookup_prop key p) (lookup_prop key p').
Proof.
  induction 1 as [|[k v] [k' v'] p p' [Hk Hv] _ IH]; simpl in *.
  - constructor.
  - subst k'. destruct (String.eqb k key); assumption.
Qed.

Lemma same_value_get (key : string) (v v' : JSValue) :
  same_value v v' ->
  match get v key, get v' key with
  | Normal x, Normal x' => same_value x x'
  | Throw e, Throw e' => e = e'
  | _, _ => False
  end.
Proof.
  intros H. destruct H; simpl; try constructor.
  apply same_value_lookup_prop. assumption.
Qed.

Lemma same_value_has_hooks_object (v v' : JSValue) :
  same_value v v' -> has_hooks_object v = has_hooks_object v'.
Proof.
  intros H. unfold has_hooks_object.
  pose proof (same_value_get "hooks" v v' H) as G.
  destruct (get v "hooks"), (get v' "hooks"); try tauto.
  destruct (same_value_tests _ _ G) as [-> ->]. reflexivity.
Qed.

Lemma same_value_configs (l l' : list JSValue) :
  Forall2 same_value l l' ->
  Forall2 same_configuration (omap as_IHookConfiguration l)
                             (omap as_IHookConfiguration l').
Proof.
  induction 1 as [|v v' l l' Hv _ IH]; simpl; [constructor|].
  destruct Hv; simpl; try assumption.
  constructor; assumption.
Qed.

Lemma same_value_configs_of (v v' : JSValue) :
  same_value v v' -> Forall2 same_value (configs_of v) (configs_of v').
Proof.
  intros H. destruct H; simpl; try (repeat constructor; fail); try assumption.
  repeat constructor. assumption.
Qed.

(** Sources with the same content declare the same configurations. *)
Lemma same_value_declared (t : HookType) (v v' : JSValue) :
  same_value v v' ->
  Forall2 same_configuration (declared t v) (declared t v').
Proof.
  intros H. unfold declared.
  pose proof (same_value_get "hooks" v v' H) as G.
  destruct (get v "hooks") as [h|], (get v' "hooks") as [h'|]; try tauto; [|constructor].
  destruct G; simpl; try constructor.
  match goal with
  | H : Forall2 _ _ _ |- _ =>
      induction H as [|[k x] [k' x'] p p' [Hk Hx] _ IH]
  end; simpl in *; [constructor|].
  apply Forall2_app; [|exact IH].
  unfold declared_for; simpl. subst k'.
  destruct (String.eqb k (HookType_value t)); [|constructor].
  apply same_value_configs, same_value_configs_of, Hx.
Qed.

Lemma same_sources_supply (src src' : Sources) :
  same_sources src src' ->
  settings_supply src = settings_supply src' /\
  file_supplies src = file_supplies src' /\
  (forall t, Forall2 same_configuration (declared t (settings src))
                                        (declared t (settings src'))) /\
  (forall t, Forall2 same_configuration (declared_by_file t src)
                                        (declared_by_file t src')).
Proof.
  intros [Hs Hf]. unfold settings_supply, file_supplies, declared_by_file.
  destruct (same_value_tests _ _ Hs) as [-> ->].
  rewrite (same_value_has_hooks_object _ _ Hs).
  split; [reflexivity|].
  split; [|split].
  - destruct (hooksFile src), (hooksFile src'); simpl in Hf; try tauto.
    apply same_value_has_hooks_object, Hf.
  - intros t. apply same_value_declared, Hs.
  - intros t. destruct (hooksFile src), (hooksFile src'); simpl in Hf;
      try tauto; try constructor.
    apply same_value_declared, Hf.
Qed.

Lemma hasHooks_same (t : HookType) (s s' : HooksService) :
  Forall2 same_configuration (getHooks t s) (getHooks t s') ->
  hasHooks t s = hasHooks t s'.
Proof.
  intros H.
  destruct (hasHooks t s) eqn:E, (hasHooks t s') eqn:E'; try reflexivity.
  - apply hasHooks_getHooks in E'. rewrite E' in H.
    apply Forall2_nil_inv_r in H. apply hasHooks_getHooks in H. congruence.
  - apply hasHooks_getHooks in E. rewrite E in H.
    apply Forall2_nil_inv_l in H. apply hasHooks_getHooks in H. congruence.
Qed.

(** ** Calls in sequence *)

Lemma consistent_perform (op : Op) (s : HooksService) :
  consistent s -> consistent (perform op s).
Proof.
  intros Hs. destruct op as [t c|a c|t|src]; simpl.
  - apply consistent_registerHook, Hs.
  - apply consistent_unregister, Hs.
  - apply consistent_clearHooks, Hs.
  - destruct (loadWorkspaceHooks src s) eqn:E; [|exact Hs].
    eapply consistent_loadWorkspaceHooks; eassumption.
Qed.

Lemma evolves_perform (op : Op) (s : HooksService) : evolves s (perform op s).
Proof.
  destruct op as [t c|a c|t|src]; simpl.
  - apply evolves_registerHook.
  - apply evolves_unregister.
  - apply evolves_clearHooks.
  - destruct (loadWorkspaceHooks_cases src s) as (s' & -> & He & _). exact He.
Qed.

Lemma perform_all_spec (ops : list Op) (s : HooksService) :
  consistent s ->
  consistent (perform_all ops s) /\ evolves s (perform_all ops s).
Proof.
  revert s. unfold perform_all.
  induction ops as [|op rest IH]; intros s Hs; simpl.
  - split; [exact Hs|apply evolves_refl].
  - destruct (IH (perform op s) (consistent_perform op s Hs)) as [Hc He].
    split; [exact Hc|].
    eapply evolves_trans; [apply evolves_perform|exact He].
Qed.

(** An array that is out of the map stays out: arrays handed out later are
    new ones. *)
Lemma detached_evolves (a : loc) (s s' : HooksService) :
  a < next_loc s -> detached a s -> evolves s s' ->
  a < next_loc s' /\ detached a s'.
Proof.
  intros Ha Hd [Hn He]. split; [lia|].
  intros t H. destruct (He _ _ H) as [H'|H']; [|lia].
  exact (Hd _ H').
Qed.

Lemma attached_evolves (a : loc) (t : HookType) (s s' : HooksService) :
  a < next_loc s ->
  (forall t', _registeredHooks s !! t' = Some a -> t' = t) ->
  evolves s s' ->
  a < next_loc s' /\ (forall t', _registeredHooks s' !! t' = Some a -> t' = t).
Proof.
  intros Ha Hd [Hn He]. split; [lia|].
  intros t' H. destruct (He _ _ H) as [H'|H']; [|lia].
  exact (Hd _ H').
Qed.

Lemma detached_drops_list (a : loc) (t : HookType) (op : Op) (s : HooksService) :
  a < next_loc s ->
  (forall t', _registeredHooks s !! t' = Some a -> t' = t) ->
  drops_list t op = true ->
  detached a (perform op s).
Proof.
  intros Ha Hat Hop. destruct op as [t0 c|a0 c|t0|src]; simpl in Hop; try discriminate.
  - apply bool_decide_eq_true in Hop. subst t0.
    intros t' H. simpl in H. apply lookup_delete_Some in H as [Hne H].
    apply Hat in H. congruence.
  - simpl. destruct (loadWorkspaceHooks_cases src s) as (s' & -> & _ & Hc).
    assert (He : evolves (Map_clear s) s').
    { destruct (file_supplies src); [tauto|].
      destruct (settings_supply src); [tauto|discriminate]. }
    intros t' H. destruct He as [_ He].
    destruct (He _ _ H) as [H'|H']; simpl in H'.
    + rewrite lookup_empty in H'. discriminate.
    + lia.
Qed.

(** The closure of a handle whose array is out of the map changes no list. *)
Lemma unregister_detached (a : loc) (c : IHookConfiguration) (s : HooksService) :
  detached a s ->
  _registeredHooks (unregister a c s) = _registeredHooks s /\
  forall t, getHooks t (unregister a c s) = getHooks t s.
Proof.
  intros Hd. split; [apply registered_unregister|].
  intros t. apply getHooks_unregister_other, Hd.
Qed.

(** ** The execution engine *)

Lemma executions_effects_of (hookType : HookType) (context : IHookContext)
    (steps : list (IHookConfiguration * Completion IHookResult)) :
  executions (flat_map (effects_of hookType context) steps) = steps.
Proof.
  induction steps as [|[hook outcome] rest IH]; simpl; [reflexivity|].
  unfold executions in *. simpl. rewrite IH. reflexivity.
Qed.

Lemma events_effects_of (hookType : HookType) (context : IHookContext)
    (steps : list (IHookConfiguration * Completion IHookResult)) :
  events (flat_map (effects_of hookType context) steps) =
  map (event_of hookType context) steps.
Proof.
  induction steps as [|[hook outcome] rest IH]; simpl; [reflexivity|].
  unfold events in *. simpl. rewrite IH. reflexivity.
Qed.

Section ExecutionEngineProperties.

Context {World : Type}.

Variable runner : Runner World.

Variable fire : Listeners World.

Variable hookType : HookType.

Variable context : IHookContext.

(** The loop in terms of its turns. *)
Lemma executeHooks_loop_steps (fuel : nat) (hooks : option loc) (index : nat)
    (results : list IHookResult) (effects : list Effect)
    (st : HooksService * World) :
  executeHooks_loop runner fire fuel hookType context hooks index results effects st =
  match steps_from runner fire hookType context fuel hooks index st with
  | Some (steps, st') =>
      Some (results ++ map (fun step => result_of (snd step)) steps,
            effects ++ flat_map (effects_of hookType context) steps,
            st')
  | None => None
  end.
Proof.
  revert index results effects st.
  induction fuel as [|fuel IH]; intros index results effects st; simpl.
  - destruct (read_hooks hooks (fst st) !! index) as [hook|]; [reflexivity|].
    simpl. rewrite !app_nil_r. reflexivity.
  - destruct (read_hooks hooks (fst st) !! index) as [hook|];
      [|simpl; rewrite !app_nil_r; reflexivity].
    unfold turn, event_of.
    destruct (runner hook context st) as [[result|error] st1]; simpl.
    + destruct (negb (success result) && truthy (abortOnFailure hook)); simpl.
      * reflexivity.
      * rewrite IH.
        destruct (steps_from runner fire hookType context fuel hooks (S index) _)
          as [[steps st']|]; [|reflexivity].
        simpl. rewrite <- !app_assoc. reflexivity.
    + destruct (truthy (abortOnFailure hook)); simpl.
      * reflexivity.
      * rewrite IH.
        destruct (steps_from runner fire hookType context fuel hooks (S index) _)
          as [[steps st']|]; [|reflexivity].
        simpl. rewrite <- !app_assoc. reflexivity.
Qed.

Lemma executeHooks_with_steps (fuel : nat) (st : HooksService * World) :
  executeHooks_with runner fire fuel hookType context st =
  match steps_from runner fire hookType context fuel
          (_registeredHooks (fst st) !! hookType) 0 st with
  | Some (steps, st') =>
      Some (map (fun step => result_of (snd step)) steps,
            flat_map (effects_of hookType context) steps,
            st')
  | None => None
  end.
Proof.
  unfold executeHooks_with. rewrite executeHooks_loop_steps. reflexivity.
Qed.

(** What a call that returned says about its results and effects. *)
Lemma executeHooks_with_returned (fuel : nat) (st st' : HooksService * World)
    (results : list IHookResult) (effects : list Effect) :
  executeHooks_with runner fire fuel hookType context st
    = Some (results, effects, st') ->
  steps_from runner fire hookType context fuel
    (_registeredHooks (fst st) !! hookType) 0 st = Some (executions effects, st') /\
  results = map (fun step => result_of (snd step)) (executions effects) /\
  effects = flat_map (effects_of hookType context) (executions effects).
Proof.
  rewrite executeHooks_with_steps.
  destruct (steps_from runner fire hookType context fuel _ 0 st)
    as [[steps st1]|]; [|discriminate].
  intros [= <- <- <-]. rewrite executions_effects_of. auto.
Qed.

(** The turns of a call follow one another. *)
Lemma steps_from_turns (fuel : nat) (hooks : option loc) (index : nat)
    (st st' : HooksService * World)
    (steps : list (IHookConfiguration * Completion IHookResult)) :
  steps_from runner fire hookType context fuel hooks index st = Some (steps, st') ->
  turns runner fire hookType context hooks index st steps st'.
Proof.
  revert index st steps.
  induction fuel as [|fuel IH]; intros index st steps; simpl.
  - destruct (read_hooks hooks (fst st) !! index) as [hook|]; [discriminate|].
    intros [= <- <-]. reflexivity.
  - destruct (read_hooks hooks (fst st) !! index) as [hook|] eqn:E;
      [|intros [= <- <-]; reflexivity].
    destruct (stops hook (fst (runner hook context st))).
    + intros [= <- <-]. simpl. rewrite E. auto.
    + destruct (steps_from runner fire hookType context fuel hooks (S index) _)
        as [[more st1]|] eqn:R; [|discriminate].
      intros [= <- <-]. simpl. rewrite E. split; [reflexivity|].
      split; [reflexivity|]. apply IH. exact R.
Qed.

(** A turn that meets a [break] condition is the last one. *)
Lemma steps_from_stops (fuel : nat) (hooks : option loc) (index : nat)
    (st st' : HooksService * World)
    (steps : list (IHookConfiguration * Completion IHookResult))
    (k : nat) (step : IHookConfiguration * Completion IHookResult) :
  steps_from runner fire hookType context fuel hooks index st = Some (steps, st') ->
  steps !! k = Some step ->
  stops (fst step) (snd step) = true ->
  length steps = S k.
Proof.
  revert index st steps k.
  induction fuel as [|fuel IH]; intros index st steps k; simpl.
  - destruct (read_hooks hooks (fst st) !! index) as [hook|]; [discriminate|].
    intros [= <- <-]. discriminate.
  - destruct (read_hooks hooks (fst st) !! index) as [hook|] eqn:E;
      [|intros [= <- <-]; discriminate].
    destruct (stops hook (fst (runner hook context st))) eqn:Es.
    + intros [= <- <-]. destruct k as [|k]; [reflexivity|discriminate].
    + destruct (steps_from runner fire hookType context fuel hooks (S index) _)
        as [[more st1]|] eqn:R; [|discriminate].
      intros [= <- <-]. destruct k as [|k]; simpl.
      * intros [= <-]. simpl. congruence.
      * intros Hk Hs. f_equal. eapply IH; eassumption.
Qed.

(** A call goes on until a turn meets a [break] condition or the array, as
    it then is, has no entry at the next index. *)
Lemma steps_from_end (fuel : nat) (hooks : option loc) (index : nat)
    (st st' : HooksService * World)
    (steps : list (IHookConfiguration * Completion IHookResult)) :
  steps_from runner fire hookType context fuel hooks index st = Some (steps, st') ->
  (exists step, last steps = Some step /\ stops (fst step) (snd step) = true) \/
  read_hooks hooks (fst st') !! (index + length steps) = None.
Proof.
  revert index st steps.
  induction fuel as [|fuel IH]; intros index st steps; simpl.
  - destruct (read_hooks hooks (fst st) !! index) as [hook|] eqn:E; [discriminate|].
    intros [= <- <-]. right. simpl. rewrite Nat.add_0_r. exact E.
  - destruct (read_hooks hooks (fst st) !! index) as [hook|] eqn:E;
      [|intros [= <- <-]; right; simpl; rewrite Nat.add_0_r; exact E].
    destruct (stops hook (fst (runner hook context st))) eqn:Es.
    + intros [= <- <-]. left. eexists. split; [reflexivity|exact Es].
    + destruct (steps_from runner fire hookType context fuel hooks (S index) _)
        as [[more st1]|] eqn:R; [|discriminate].
      intros [= <- <-]. destruct (IH _ _ _ R) as [(step & Hl & Hs)|Hn].
      * left. exists step. split; [|exact Hs].
        destruct more as [|m more]; [discriminate|exact Hl].
      * right. simpl. rewrite <- Nat.add_succ_comm. exact Hn.
Qed.



(** When the array of the call never has more than [n] entries, [n] turns
    suffice. *)
Lemma steps_from_returns (n fuel : nat) (hooks : option loc) (index : nat)
    (st : HooksService * World) :
  never_longer runner fire context hooks n ->
  length (read_hooks hooks (fst st)) <= n ->
  n <= fuel + index ->
  is_Some (steps_from runner fire hookType context fuel hooks index st).
Proof.
  intros [Hrun Hfire]. revert index st.
  induction fuel as [|fuel IH]; intros index st Hlen Hn; cbn [steps_from].
  - destruct (read_hooks hooks (fst st) !! index) as [hook|] eqn:E; [|eauto].
    apply lookup_lt_Some in E. lia.
  - destruct (read_hooks hooks (fst st) !! index) as [hook|] eqn:E; [|eauto].
    destruct (stops hook (fst (runner hook context st))); [eauto|].
    destruct (IH (S index) (snd (turn runner fire hookType context hook st)))
      as [[more st'] ->]; [apply Hfire, Hrun, Hlen|lia|eauto].
Qed.


(** When nothing writes the array of the call while it runs, the call takes
    the turns for the list as it was at the start. *)
Lemma steps_from_quiet (fuel : nat) (hooks : option loc) (index : nat)
    (st : HooksService * World) :
  quiet runner fire context hooks ->
  length (read_hooks hooks (fst st)) <= fuel + index ->
  steps_from runner fire hookType context fuel hooks index st =
  Some (run_steps runner fire hookType context
          (drop index (read_hooks hooks (fst st))) st).
Proof.
  intros [Hrun Hfire]. revert index st.
  induction fuel as [|fuel IH]; intros index st Hlen; cbn [steps_from].
  - destruct (read_hooks hooks (fst st) !! index) as [hook|] eqn:E.
    + apply lookup_lt_Some in E. lia.
    + rewrite drop_ge by (apply lookup_ge_None; exact E). reflexivity.
  - destruct (read_hooks hooks (fst st) !! index) as [hook|] eqn:E.
    + rewrite (drop_S _ _ _ E). cbn [run_steps].
      destruct (stops hook (fst (runner hook context st))); [reflexivity|].
      assert (Hsame : read_hooks hooks (fst (snd (turn runner fire hookType context hook st)))
                      = read_hooks hooks (fst st)).
      { unfold turn. simpl. rewrite Hfire, Hrun. reflexivity. }
      rewrite IH by (rewrite Hsame; lia). rewrite Hsame.
      destruct (run_steps runner fire hookType context _ _) as [steps st'].
      reflexivity.
    + rewrite drop_ge by (apply lookup_ge_None; exact E). reflexivity.
Qed.


End ExecutionEngineProperties.

(** The array a call starts with is the list of the hook type. *)
Lemma read_hooks_getHooks (t : HookType) (s : HooksService) :
  read_hooks (_registeredHooks s !! t) s = getHooks t s.
Proof. reflexivity. Qed.

(** ** The body of [executeHook] in the source *)

(** [executeHook] leaves the array of a call alone when the code that runs
    while it waits does. *)
Lemma executeHook_quiet {World : Type} (platform : Platform World)
    (hooks : option loc) :
  (forall ms st, read_hooks hooks (fst (await_timeout platform ms st))
                 = read_hooks hooks (fst st)) ->
  (forall st, read_hooks hooks (fst (await_settled platform st))
              = read_hooks hooks (fst st)) ->
  forall hook context st,
    read_hooks hooks (fst (snd (executeHook platform hook context st)))
    = read_hooks hooks (fst st).
Proof.
  intros Htimeout Hsettled hook context st. unfold executeHook.
  destruct (Date_now platform (snd st)) as [startTime w1].
  destruct (String_ _ _) as [text|error].
  - destruct (Date_now platform w1) as [now w2]. cbn [snd].
    rewrite Hsettled, Htimeout. reflexivity.
  - cbn [snd]. rewrite Hsettled. reflexivity.
Qed.

(** An array that is left alone does not grow. *)
Lemma quiet_never_longer {World : Type} (runner : Runner World)
    (fire : Listeners World) (context : IHookContext) (hooks : option loc)
    (n : nat) :
  quiet runner fire context hooks -> never_longer runner fire context hooks n.
Proof.
  intros [Hrun Hfire]. split.
  - intros hook st H. rewrite Hrun. exact H.
  - intros event st H. rewrite Hfire. exact H.
Qed.

Lemma quiet_platform_quiet {World : Type} (platform : Platform World)
    (fire : Listeners World) (context : IHookContext) (hooks : option loc) :
  quiet_platform platform fire hooks ->
  quiet (executeHook platform) fire context hooks.
Proof.
  intros (Htimeout & Hsettled & Hfire). split; [|exact Hfire].
  intros hook st. apply executeHook_quiet; assumption.
Qed.

Lemma sample_platform_quiet (hooks : option loc) :
  quiet_platform sample_platform (@no_listener Z) hooks.
Proof. repeat split. Qed.

(** What [executeHook] gives for a hook whose script, or else command, has a
    text: a success that carries that text, with the time between two
    readings of the clock. *)
Lemma executeHook_success {World : Type} (platform : Platform World)
    (hook : IHookConfiguration) (context : IHookContext)
    (st : HooksService * World) (text : string) :
  text_of (Number_toString platform) hook = Normal text ->
  exists t,
    fst (executeHook platform hook context st) =
    Normal {| exitCode := 0;
              stdout := "Simulated execution of hook: " +:+ text;
              stderr := "";
              success := true;
              executionTime := t |}.
Proof.
  unfold text_of, executeHook. intros ->.
  destruct (Date_now platform (snd st)) as [startTime w1].
  destruct (Date_now platform w1) as [now w2]. eexists. reflexivity.
Qed.

(** What it gives for a hook whose script, or else command, has none: the
    throw of the conversion. *)
Lemma executeHook_throw {World : Type} (platform : Platform World)
    (hook : IHookConfiguration) (context : IHookContext)
    (st : HooksService * World) (error : Thrown) :
  text_of (Number_toString platform) hook = Throw error ->
  fst (executeHook platform hook context st) = Throw error.
Proof.
  unfold text_of, executeHook. intros ->.
  destruct (Date_now platform (snd st)) as [startTime w1]. reflexivity.
Qed.

(** * The claims *)

Lemma stops_failed (hook : IHookConfiguration) (outcome : Completion IHookResult) :
  success (result_of outcome) = false ->
  stops hook outcome = truthy (abortOnFailure hook).
Proof.
  destruct outcome as [r|e]; simpl; [intros ->|]; reflexivity.
Qed.




(** C2. With a [pre-commit] hook under [hooks] in the settings and another
    in the workspace file, the reload leaves only the one of the file: the
    second [loadHooksFromConfig] starts by clearing what the first one
    registered. The claim asks for both, the one of the settings first. *)
Theorem reload_drops_settings_hooks :
  declared PreCommit (settings both_sources) = [lint_hook] /\
  declared_by_file PreCommit both_sources = [script_hook] /\
  exists s',
    loadWorkspaceHooks both_sources new_HooksService = Normal s' /\
    getHooks PreCommit s' = [script_hook] /\
    getHooks PreCommit s' <> [lint_hook; script_hook].
Proof.
  split; [reflexivity|]. split; [reflexivity|].
  eexists. split; [reflexivity|]. split; [reflexivity|].
  discriminate.
Qed.

(** Settings in the shape the test of the service and the settings schema
    use, with the hook lists directly under [hooks] and no inner [hooks] key,
    do not get past the guard of [loadHooksFromConfig]: nothing is loaded. *)
Example settings_without_hooks_key_are_ignored :
  let src := {| settings :=
                  JObject 50 [("pre-commit", JArray [JObject 12 (props lint_hook)])];
                hooksFile := NoWorkspaceFolder |} in
  loadWorkspaceHooks src new_HooksService = Normal new_HooksService.
Proof. reflexivity. Qed.

(** C3. The hooks of [.vscode/hooks.json] are loaded into a new service,
    the file is deleted, and the hooks are loaded again. Neither source
    declares a hook now, but the registry still holds the hook of the
    deleted file: [this._registeredHooks.clear()] sits in
    [loadHooksFromConfig] behind the test for a [hooks] object, so a reload
    whose sources have no such object clears nothing. The same holds for a
    hook registered by code. *)
Theorem reload_keeps_hooks_of_deleted_file :
  exists s1 s2 s3,
    loadWorkspaceHooks file_only new_HooksService = Normal s1 /\
    getHooks PreCommit s1 = [script_hook] /\
    loadWorkspaceHooks file_deleted s1 = Normal s2 /\
    declared PreCommit (settings file_deleted)
      ++ declared_by_file PreCommit file_deleted = [] /\
    getHooks PreCommit s2 = [script_hook] /\
    loadWorkspaceHooks file_deleted (registered PrePush [lint_hook]) = Normal s3 /\
    getHooks PrePush s3 = [lint_hook].
Proof.
  do 3 eexists.
  split; [reflexivity|]. split; [reflexivity|]. split; [reflexivity|].
  split; [reflexivity|]. split; [reflexivity|]. split; reflexivity.
Qed.

(** When exactly one of the two sources has an object under [hooks], a
    reload leaves, for every hook type, exactly the configurations the
    sources declare for it, whatever the registry held before. *)
Lemma loadWorkspaceHooks_one_source (src : Sources) (s : HooksService) :
  xorb (settings_supply src) (file_supplies src) = true ->
  exists s', loadWorkspaceHooks src s = Normal s' /\
             forall t, getHooks t s' =
                       declared t (settings src) ++ declared_by_file t src.
Proof.
  destruct (loadWorkspaceHooks_cases src s) as (s' & H & _ & C).
  intros Hx. exists s'. split; [exact H|]. intros t.
  destruct (file_supplies src) eqn:Ef.
  - destruct (settings_supply src) eqn:Es; [discriminate|].
    destruct C as (_ & _ & ->).
    unfold settings_supply in Es.
    destruct (has_hooks_object (settings src)) eqn:E.
    + rewrite (has_hooks_object_isObject _ E) in Es. discriminate.
    + rewrite (declared_not_supplied _ _ E). reflexivity.
  - destruct (settings_supply src) eqn:Es; [|discriminate].
    destruct C as (_ & _ & ->).
    unfold file_supplies in Ef. unfold declared_by_file.
    destruct (hooksFile src) as [| |hooksConfig]; try (rewrite app_nil_r; reflexivity).
    rewrite (declared_not_supplied _ _ Ef), app_nil_r. reflexivity.
Qed.

(** C4, as stated, fails. A configuration with both [script] and [command],
    and one with neither, are registered like any other. *)
Lemma registerHook_accepts_malformed :
  malformed ambiguous_hook = true /\
  malformed empty_hook = true /\
  getHooks PreCommit (snd (registerHook PreCommit ambiguous_hook new_HooksService))
    = [ambiguous_hook] /\
  getHooks PreCommit (snd (registerHook PreCommit empty_hook new_HooksService))
    = [empty_hook] /\
  getHooks PreCommit (snd (registerHook PreCommit ambiguous_hook new_HooksService))
    <> getHooks PreCommit new_HooksService.
Proof.
  split; [reflexivity|]. split; [reflexivity|].
  split; [reflexivity|]. split; [reflexivity|].
  discriminate.
Qed.

(** C4 (amended). [registerHook] checks nothing: whatever the configuration
    holds, with both of [script] and [command] or with neither too, it is
    appended to the list of the hook type, and [hasHooks] is true afterwards. *)
Theorem registerHook_accepts_any_configuration (t : HookType)
    (c : IHookConfiguration) (s : HooksService) :
  getHooks t (snd (registerHook t c s)) = getHooks t s ++ [c] /\
  hasHooks t (snd (registerHook t c s)) = true.
Proof.
  split; [apply getHooks_registerHook|apply hasHooks_registerHook].
Qed.

(** C5. A call of [executeHooks] that returns is a chain of turns, one for
    each hook it executed, whether the execution returned a success,
    returned a failure or threw: the hook is the entry the array has at the
    next index when its turn comes; it is executed in the state the turn
    before left; then one event with the hook type, that configuration, that
    hook's result and the context is handed to the listeners, in the state
    the execution left; and the next hook is executed in the state the
    listeners left, so after the event. The effects of the call are these
    executions, each followed by its event, and nothing else; the results
    are those of the executions; the call leaves the state the last
    listeners left; and it ends only after a hook that meets a [break]
    condition, or when the array has no entry at the next index. The call
    does return when the array is kept from growing beyond some length. *)
Theorem executeHooks_fires_once_per_hook {World : Type} (runner : Runner World)
    (fire : Listeners World) (hookType : HookType) (context : IHookContext)
    (st : HooksService * World) :
  let hooks := _registeredHooks (fst st) !! hookType in
  (forall fuel results effects st',
     executeHooks_with runner fire fuel hookType context st
       = Some (results, effects, st') ->
     turns runner fire hookType context hooks 0 st (executions effects) st' /\
     effects =
       flat_map
         (fun step =>
            [Executed (fst step) context (snd step);
             Fired {| event_hookType := hookType;
                      configuration := fst step;
                      result := result_of (snd step);
                      context := context |}])
         (executions effects) /\
     results = map (fun step => result_of (snd step)) (executions effects) /\
     ((exists step, last (executions effects) = Some step /\
                    stops (fst step) (snd step) = true) \/
      read_hooks hooks (fst st') !! length (executions effects) = None)) /\
  (forall n fuel,
     never_longer runner fire context hooks n ->
     length (read_hooks hooks (fst st)) <= n ->
     n <= fuel ->
     is_Some (executeHooks_with runner fire fuel hookType context st)).
Proof.
  intros hooks. split.
  - intros fuel results effects st' Hret.
    apply executeHooks_with_returned in Hret as (Hsteps & Hres & Heff).
    fold hooks in Hsteps.
    split; [eapply steps_from_turns; exact Hsteps|].
    split; [exact Heff|]. split; [exact Hres|].
    exact (steps_from_end runner fire hookType context _ _ _ _ _ _ Hsteps).
  - intros n fuel Hbound Hlen Hn.
    rewrite executeHooks_with_steps. fold hooks.
    destruct (steps_from_returns runner fire hookType context n fuel hooks 0 st
                Hbound Hlen) as [[steps st'] ->]; [lia|eauto].
Qed.

(** Two hooks, the second with a script that has no text: the call takes
    two turns and fires two events, one after each execution. *)
Lemma executeHooks_fires_once_per_hook_witness :
  let s := registered FileSave [lint_hook; tolerated_hook] in
  let context := sample_context FileSave in
  exists results effects st',
    executeHooks sample_platform no_listener 2 FileSave context (s, 0%Z)
      = Some (results, effects, st') /\
    turns (executeHook sample_platform) no_listener FileSave context
      (_registeredHooks s !! FileSave) 0 (s, 0%Z) (executions effects) st' /\
    map configuration (events effects) = [lint_hook; tolerated_hook] /\
    is_Some (executeHooks sample_platform no_listener 7 FileSave context (s, 0%Z)).
Proof.
  intros s context.
  pose proof (executeHooks_fires_once_per_hook (executeHook sample_platform)
                no_listener FileSave context (s, 0%Z)) as [Hret Hsome].
  destruct (executeHooks sample_platform no_listener 2 FileSave context (s, 0%Z))
    as [[[results effects] st']|] eqn:E; [|discriminate].
  exists results, effects, st'. split; [reflexivity|].
  split; [exact (proj1 (Hret 2 results effects st' E))|].
  split; [injection E as <- <- <-; reflexivity|].
  apply (Hsome 2 7).
  - exact (quiet_never_longer _ _ _ _ _
             (quiet_platform_quiet _ _ _ _ (sample_platform_quiet _))).
  - vm_compute. lia.
  - lia.
Defined.

(** The result recorded for a hook whose execution throws: the entry at the
    hook's position has [success = false], [exitCode = -1], an empty
    [stdout], [stderr] set to the message of the thrown [Error] (to
    [String(error)] when something else was thrown), and the literal 0 as
    [executionTime], for every body of [executeHook]. *)
Lemma executeHooks_records_thrown_error {World : Type} (runner : Runner World)
    (fire : Listeners World) (fuel : nat) (hookType : HookType)
    (context : IHookContext) (st st' : HooksService * World)
    (results : list IHookResult) (effects : list Effect)
    (k : nat) (hook : IHookConfiguration) (error : Thrown) :
  executeHooks_with runner fire fuel hookType context st
    = Some (results, effects, st') ->
  executions effects !! k = Some (hook, Throw error) ->
  results !! k =
    Some {| exitCode := -1;
            stdout := "";
            stderr := match error with
                      | JSError message => message
                      | ThrownValue text => text
                      end;
            success := false;
            executionTime := 0 |}.
Proof.
  intros Hret Hk. apply executeHooks_with_returned in Hret as (_ & -> & _).
  rewrite list_lookup_fmap, Hk. reflexivity.
Qed.

(** C6. The workspace file declares a pre-push hook whose script is an
    object that has no text, [{"script": {"toString": 1}}]; the hook is
    loaded like any other, and its execution throws a [TypeError].
    [executeHooks] returns; the entry of the hook has [success = false],
    [exitCode = -1] and the message of the error as [stderr], and 0 as
    [executionTime]. The clock, which [executeHook] read as 1000 at its
    start, is at 1001 when the call is over: the time that went by is not
    what the entry says. *)
Theorem thrown_error_recorded_with_zero_time :
  exists s r effects st',
    loadWorkspaceHooks textless_script_file new_HooksService = Normal s /\
    getHooks PrePush s = [tolerated_hook] /\
    executeHooks sample_platform no_listener 1 PrePush (sample_context PrePush)
      (s, 1000%Z) = Some ([r], effects, st') /\
    executions effects =
      [(tolerated_hook, Throw (JSError "Cannot convert object to primitive value"))] /\
    r = {| exitCode := -1; stdout := "";
           stderr := "Cannot convert object to primitive value";
           success := false; executionTime := 0 |} /\
    fst (Date_now sample_platform 1000%Z) = 1000%Z /\
    snd st' = 1001%Z /\
    executionTime r <> (snd st' - 1000)%Z.
Proof.
  do 4 eexists.
  split; [reflexivity|]. split; [reflexivity|]. split; [reflexivity|].
  split; [reflexivity|]. split; [reflexivity|]. split; [reflexivity|].
  split; [reflexivity|]. discriminate.
Qed.

(** C7. When the registry has no list for the hook type, or an empty one,
    [executeHooks] returns an empty array, fires no event and makes no call
    of [executeHook]; the registry and the outside are left as they were. *)
Theorem executeHooks_without_hooks {World : Type} (runner : Runner World)
    (fire : Listeners World) (fuel : nat)
    (hookType : HookType) (context : IHookContext)
    (st : HooksService * World) :
  hasHooks hookType (fst st) = false ->
  executeHooks_with runner fire fuel hookType context st = Some ([], [], st).
Proof.
  intros H. apply hasHooks_getHooks in H.
  unfold executeHooks_with.
  assert (Hnone : read_hooks (_registeredHooks (fst st) !! hookType) (fst st) !! 0
                  = None).
  { unfold getHooks in H. unfold read_hooks. rewrite H. reflexivity. }
  destruct fuel; simpl; rewrite Hnone; reflexivity.
Qed.

Lemma executeHooks_without_hooks_witness :
  let s := snd (dispose (fst (registerHook FileSave echo_hook new_HooksService))
                        (snd (registerHook FileSave echo_hook new_HooksService))) in
  hasHooks FileSave s = false /\
  _registeredHooks s !! FileSave = Some 0 /\
  hasHooks PrePull s = false /\
  _registeredHooks s !! PrePull = None /\
  executeHooks sample_platform no_listener 3 FileSave (sample_context FileSave)
    (s, 5%Z) = Some ([], [], (s, 5%Z)) /\
  executeHooks sample_platform no_listener 3 PrePull (sample_context PrePull)
    (s, 5%Z) = Some ([], [], (s, 5%Z)).
Proof.
  intros s.
  split; [reflexivity|]. split; [reflexivity|].
  split; [reflexivity|]. split; [reflexivity|].
  split.
  - apply (executeHooks_without_hooks (executeHook sample_platform) no_listener 3
             FileSave (sample_context FileSave) (s, 5%Z)). reflexivity.
  - apply (executeHooks_without_hooks (executeHook sample_platform) no_listener 3
             PrePull (sample_context PrePull) (s, 5%Z)). reflexivity.
Defined.

(** C8. Right after [registerHook(t, c)], [hasHooks(t)] is true. Invoking the
    returned handle takes out of the list of [t] one entry that is the object
    [c] (the first such entry; entries with equal fields that are other
    objects stay) and leaves the lists of the other hook types alone; if the
    list held nothing else, [hasHooks(t)] is false afterwards. Invoking the
    handle a second time changes nothing, whatever the list holds, also other
    registrations of the same object. *)
Theorem registerHook_then_dispose (t : HookType) (c : IHookConfiguration)
    (s : HooksService) :
  consistent s ->
  let d := fst (registerHook t c s) in
  let s1 := snd (registerHook t c s) in
  let d' := fst (dispose d s1) in
  let s2 := snd (dispose d s1) in
  hasHooks t s1 = true /\
  (exists before y after,
      getHooks t s1 = before ++ y :: after /\
      same_object y c = true /\
      Forall (fun z => same_object z c = false) before /\
      getHooks t s2 = before ++ after) /\
  (forall t', t' <> t -> getHooks t' s2 = getHooks t' s) /\
  (getHooks t s = [] -> hasHooks t s2 = false) /\
  dispose d' s2 = (d', s2).
Proof.
  intros Hs d s1 d' s2.
  destruct (registerHook_handle t c s Hs) as (a & Hd & Ha & _).
  assert (Hs1 : consistent s1) by apply consistent_registerHook, Hs.
  assert (Hg1 : getHooks t s1 = getHooks t s ++ [c]) by apply getHooks_registerHook.
  assert (Hs2 : s2 = unregister a c s1) by (subst s2 d; rewrite Hd; reflexivity).
  assert (Hremoved : exists before y after,
             getHooks t s1 = before ++ y :: after /\
             same_object y c = true /\
             Forall (fun z => same_object z c = false) before /\
             getHooks t s2 = before ++ after).
  { rewrite Hs2.
    destruct (getHooks_unregister a c t s1 Ha) as [H|[H _]]; [exact H|].
    exfalso. rewrite Hg1 in H. apply Forall_app in H as [_ H].
    apply Forall_inv in H. rewrite same_object_refl in H. discriminate. }
  split; [apply hasHooks_registerHook|].
  split; [exact Hremoved|]. split; [|split].
  - intros t' Hne. rewrite Hs2.
    rewrite getHooks_unregister_other.
    + apply getHooks_registerHook_other; assumption.
    + intros H. destruct Hs1 as [_ Hi]. apply Hne. eapply Hi; eassumption.
  - intros Hempty. apply hasHooks_getHooks.
    destruct Hremoved as (before & y & after & H1 & _ & _ & H2).
    rewrite Hg1, Hempty in H1. rewrite H2.
    destruct before as [|x before]; simpl in H1.
    + injection H1 as _ <-. reflexivity.
    + destruct before; discriminate.
  - subst d' s2 d. rewrite Hd. reflexivity.
Qed.

(** The same object registered twice, with another hook between: the handle
    of the second registration takes out the first entry that is that
    object, and its second invocation changes nothing. *)
Lemma registerHook_then_dispose_witness :
  let s := registered PreCommit [lint_hook; echo_hook] in
  let d := fst (registerHook PreCommit lint_hook s) in
  let s1 := snd (registerHook PreCommit lint_hook s) in
  let d' := fst (dispose d s1) in
  let s2 := snd (dispose d s1) in
  consistent s /\
  getHooks PreCommit s1 = [lint_hook; echo_hook; lint_hook] /\
  getHooks PreCommit s2 = [echo_hook; lint_hook] /\
  hasHooks PreCommit s1 = true /\
  dispose d' s2 = (d', s2).
Proof.
  intros s d s1 d' s2.
  assert (Hs : consistent s).
  { unfold s, registered. apply perform_all_spec, consistent_new. }
  split; [exact Hs|].
  split; [reflexivity|]. split; [reflexivity|].
  destruct (registerHook_then_dispose PreCommit lint_hook s Hs)
    as (Hhas & _ & _ & _ & Htwice).
  split; [exact Hhas|exact Htwice].
Defined.

(** Identity, not equality of fields: of two objects with the same fields the
    handle takes out the one it was made for. *)
Example dispose_removes_the_object_not_its_twin :
  let twin := {| ref := 99; props := props lint_hook |} in
  let s := registered PreCommit [lint_hook] in
  getHooks PreCommit (snd (registerHook PreCommit twin s)) = [lint_hook; twin] /\
  getHooks PreCommit
    (snd (dispose (fst (registerHook PreCommit twin s))
                  (snd (registerHook PreCommit twin s)))) = [lint_hook].
Proof. split; reflexivity. Qed.

(** The at-most-once guard of the handle matters: the closure itself, run
    twice over a list that holds the same object twice, takes out both. *)
Example unregister_twice_same_object :
  let s := registered PreCommit [lint_hook; lint_hook] in
  getHooks PreCommit (unregister 0 lint_hook s) = [lint_hook] /\
  getHooks PreCommit (unregister 0 lint_hook (unregister 0 lint_hook s)) = [].
Proof. split; reflexivity. Qed.

(** C9. Two reloads in a row, the sources being the same both times (the
    same content, read again, so possibly in new objects), leave for every
    hook type the same list of configurations as the first reload did,
    whatever the registry held before; when the second reload is handed the
    very same objects, the lists are equal outright. *)
Theorem loadWorkspaceHooks_idempotent (src src' : Sources) (s : HooksService) :
  same_sources src src' ->
  exists s1 s2,
    loadWorkspaceHooks src s = Normal s1 /\
    loadWorkspaceHooks src' s1 = Normal s2 /\
    forall t, Forall2 same_configuration (getHooks t s1) (getHooks t s2) /\
              hasHooks t s2 = hasHooks t s1 /\
              (src' = src -> getHooks t s2 = getHooks t s1).
Proof.
  intros Hsame.
  destruct (same_sources_supply src src' Hsame) as (Es & Ef & Hds & Hdf).
  destruct (loadWorkspaceHooks_cases src s) as (s1 & H1 & _ & C1).
  destruct (loadWorkspaceHooks_cases src' s1) as (s2 & H2 & _ & C2).
  exists s1, s2. split; [exact H1|]. split; [exact H2|].
  rewrite <- Es, <- Ef in C2.
  assert (Hget : forall t, Forall2 same_configuration (getHooks t s1) (getHooks t s2)).
  { intros t. destruct (file_supplies src).
    - destruct C1 as (_ & _ & ->), C2 as (_ & _ & ->). apply Hdf.
    - destruct (settings_supply src).
      + destruct C1 as (_ & _ & ->), C2 as (_ & _ & ->). apply Hds.
      + subst. apply same_configuration_refl. }
  intros t. split; [apply Hget|].
  split; [symmetry; apply hasHooks_same, Hget|].
  intros ->. destruct (file_supplies src).
  - destruct C1 as (_ & _ & ->), C2 as (_ & _ & ->). reflexivity.
  - destruct (settings_supply src).
    + destruct C1 as (_ & _ & ->), C2 as (_ & _ & ->). reflexivity.
    + subst. reflexivity.
Qed.

Lemma loadWorkspaceHooks_idempotent_witness :
  same_sources both_sources both_sources_again /\
  exists s1 s2,
    loadWorkspaceHooks both_sources (registered FileSave [echo_hook]) = Normal s1 /\
    loadWorkspaceHooks both_sources_again s1 = Normal s2 /\
    forall t, Forall2 same_configuration (getHooks t s1) (getHooks t s2) /\
              hasHooks t s2 = hasHooks t s1 /\
              (both_sources_again = both_sources -> getHooks t s2 = getHooks t s1).
Proof.
  assert (H : same_sources both_sources both_sources_again)
    by (split; simpl; repeat constructor).
  split; [exact H|].
  exact (loadWorkspaceHooks_idempotent both_sources both_sources_again
           (registered FileSave [echo_hook]) H).
Defined.

(** C10. Register a configuration, let any calls follow, among them a call
    that takes the list of its hook type out of the map ([clearHooks] for
    that type, or a reload in which a source has an object under [hooks]),
    and any calls after that. Invoking the handle then completes and leaves
    the map and the list of every hook type as they are: nothing is removed
    and nothing comes back. *)
Theorem stale_handle_changes_nothing (t : HookType) (c : IHookConfiguration)
    (s : HooksService) (earlier later : list Op) (op : Op) :
  consistent s ->
  drops_list t op = true ->
  let d := fst (registerHook t c s) in
  let s1 := snd (registerHook t c s) in
  let s2 := perform_all later (perform op (perform_all earlier s1)) in
  _registeredHooks (snd (dispose d s2)) = _registeredHooks s2 /\
  forall t', getHooks t' (snd (dispose d s2)) = getHooks t' s2 /\
             hasHooks t' (snd (dispose d s2)) = hasHooks t' s2.
Proof.
  intros Hs Hop d s1 s2.
  destruct (registerHook_handle t c s Hs) as (a & Hd & Ha & Hlt).
  fold s1 in Ha, Hlt.
  assert (Hs1 : consistent s1) by apply consistent_registerHook, Hs.
  destruct (perform_all_spec earlier s1 Hs1) as [Hc1 He1].
  set (sa := perform_all earlier s1) in *.
  assert (Hat : a < next_loc sa /\
                forall t', _registeredHooks sa !! t' = Some a -> t' = t).
  { eapply attached_evolves; [exact Hlt| |exact He1].
    intros t' H. destruct Hs1 as [_ Hi]. eapply Hi; eassumption. }
  assert (Hdet : a < next_loc (perform op sa) /\ detached a (perform op sa)).
  { split.
    - destruct (evolves_perform op sa) as [Hn _]. lia.
    - apply (detached_drops_list a t); tauto. }
  destruct (perform_all_spec later (perform op sa) (consistent_perform op sa Hc1))
    as [_ He2].
  fold s2 in He2.
  destruct (detached_evolves a _ s2 (proj1 Hdet) (proj2 Hdet) He2) as [_ Hd2].
  assert (Hs2 : snd (dispose d s2) = unregister a c s2)
    by (subst d; rewrite Hd; reflexivity).
  rewrite Hs2.
  destruct (unregister_detached a c s2 Hd2) as [Hreg Hget].
  split; [exact Hreg|].
  intros t'. split; [apply Hget|]. apply hasHooks_ext, Hget.
Qed.

(** The handle of a registration that [clearHooks] has dropped, invoked after
    the same object has been registered again: the new registration stays. *)
Lemma stale_handle_changes_nothing_witness :
  let s := new_HooksService in
  let d := fst (registerHook PreCommit lint_hook s) in
  let s1 := snd (registerHook PreCommit lint_hook s) in
  let s2 := perform_all [OpRegister PreCommit lint_hook]
              (perform (OpClear PreCommit)
                 (perform_all [OpRegister PrePush echo_hook] s1)) in
  consistent s /\
  drops_list PreCommit (OpClear PreCommit) = true /\
  getHooks PreCommit s2 = [lint_hook] /\
  getHooks PreCommit (snd (dispose d s2)) = getHooks PreCommit s2.
Proof.
  intros s d s1 s2.
  split; [exact consistent_new|]. split; [reflexivity|]. split; [reflexivity|].
  apply (stale_handle_changes_nothing PreCommit lint_hook s
           [OpRegister PrePush echo_hook] [OpRegister PreCommit lint_hook]
           (OpClear PreCommit) consistent_new eq_refl).
Defined.

(** * Further properties of the service *)

Lemma remove_first_absent (c : IHookConfiguration) (l : list IHookConfiguration) :
  Forall (fun z => same_object z c = false) l -> remove_first c l = l.
Proof.
  induction 1 as [|y rest Hy _ IH]; simpl; [reflexivity|].
  rewrite Hy, IH. reflexivity.
Qed.

Lemma remove_first_found (c y : IHookConfiguration)
    (before after : list IHookConfiguration) :
  Forall (fun z => same_object z c = false) before ->
  same_object y c = true ->
  remove_first c (before ++ y :: after) = before ++ after.
Proof.
  intros Hb Hy. induction Hb as [|z rest Hz _ IH]; simpl.
  - rewrite Hy. reflexivity.
  - rewrite Hz, IH. reflexivity.
Qed.

(** What the closure of a handle does to the arrays: the array it closes over
    loses the first entry that is its object, the others are not touched. *)
Lemma array_read_unregister (a b : loc) (c : IHookConfiguration) (s : HooksService) :
  array_read (unregister a c s) b =
  if decide (a = b) then remove_first c (array_read s a) else array_read s b.
Proof.
  unfold unregister.
  destruct (Z.eqb_spec (indexOf (array_read s a) c) (-1)) as [Hi|Hi]; simpl.
  - case_decide; [subst b|reflexivity].
    symmetry. apply remove_first_absent, indexOf_absent, Hi.
  - rewrite array_read_write. case_decide; [|reflexivity].
    destruct (indexOf_found _ _ Hi) as (before & y & after & Hl & Hy & Hb & Hidx).
    rewrite Hidx, Hl, splice_one. symmetry. apply remove_first_found; assumption.
Qed.

Lemma getHooks_unregister_any (a : loc) (c : IHookConfiguration) (t : HookType)
    (s : HooksService) :
  getHooks t (unregister a c s) =
  match _registeredHooks s !! t with
  | Some b => if decide (a = b) then remove_first c (array_read s a) else array_read s b
  | None => []
  end.
Proof.
  unfold getHooks. rewrite (proj1 (registered_unregister a c s)).
  destruct (_registeredHooks s !! t) as [b|]; [|reflexivity].
  apply array_read_unregister.
Qed.

Lemma remove_first_comm (c1 c2 : IHookConfiguration) (l : list IHookConfiguration) :
  remove_first c1 (remove_first c2 l) = remove_first c2 (remove_first c1 l).
Proof.
  induction l as [|y rest IH]; simpl; [reflexivity|].
  destruct (same_object y c2) eqn:E2, (same_object y c1) eqn:E1; simpl;
    rewrite ?E1, ?E2; try reflexivity.
  - unfold same_object in *.
    apply Nat.eqb_eq in E1, E2.
    assert (H : forall z, same_object z c1 = same_object z c2).
    { intros z. unfold same_object. rewrite <- E1, <- E2. reflexivity. }
    clear IH. induction rest as [|z rest IH]; simpl; [reflexivity|].
    rewrite H, IH. reflexivity.
  - rewrite IH. reflexivity.
Qed.

(** X1. Hooks registered one after another for a hook type are listed by
    [getHooks] after the ones already there, in the order of registration,
    and the lists of the other hook types stay as they are. *)
Theorem registerHook_keeps_registration_order (t : HookType)
    (l : list IHookConfiguration) (s : HooksService) :
  consistent s ->
  getHooks t (fold_left (fun s c => snd (registerHook t c s)) l s)
    = getHooks t s ++ l /\
  forall t', t' <> t ->
    getHooks t' (fold_left (fun s c => snd (registerHook t c s)) l s)
      = getHooks t' s.
Proof.
  revert s. induction l as [|c rest IH]; intros s Hs; simpl.
  - rewrite app_nil_r. auto.
  - destruct (IH _ (consistent_registerHook t c s Hs)) as [H1 H2].
    split.
    + rewrite H1, getHooks_registerHook, <- app_assoc. reflexivity.
    + intros t' Hne. rewrite (H2 t' Hne).
      apply getHooks_registerHook_other; assumption.
Qed.

Lemma registerHook_keeps_registration_order_witness :
  consistent (registered FileSave [echo_hook]) /\
  getHooks PreCommit
    (fold_left (fun s c => snd (registerHook PreCommit c s))
               [lint_hook; script_hook; lint_hook] (registered FileSave [echo_hook]))
    = [lint_hook; script_hook; lint_hook] /\
  getHooks FileSave
    (fold_left (fun s c => snd (registerHook PreCommit c s))
               [lint_hook; script_hook; lint_hook] (registered FileSave [echo_hook]))
    = [echo_hook].
Proof.
  assert (Hs : consistent (registered FileSave [echo_hook]))
    by (apply perform_all_spec, consistent_new).
  split; [exact Hs|].
  destruct (registerHook_keeps_registration_order PreCommit
              [lint_hook; script_hook; lint_hook] _ Hs) as [H1 H2].
  split; [exact H1|]. apply H2. discriminate.
Defined.

(** X2. [clearHooks] empties the list of its hook type and no other: after
    it [getHooks] gives nothing and [hasHooks] is false for that type, the
    other types keep their lists, and a configuration registered next is
    alone in the list. *)
Theorem clearHooks_empties_one_type (t : HookType) (c : IHookConfiguration)
    (s : HooksService) :
  getHooks t (clearHooks t s) = [] /\
  hasHooks t (clearHooks t s) = false /\
  (forall t', t' <> t -> getHooks t' (clearHooks t s) = getHooks t' s) /\
  getHooks t (snd (registerHook t c (clearHooks t s))) = [c].
Proof.
  assert (H : getHooks t (clearHooks t s) = []).
  { unfold getHooks; simpl. rewrite lookup_delete_eq. reflexivity. }
  split; [exact H|]. split; [apply hasHooks_getHooks, H|]. split.
  - intros t' Hne. unfold getHooks; simpl.
    rewrite lookup_delete_ne by congruence. reflexivity.
  - rewrite getHooks_registerHook, H. reflexivity.
Qed.

Lemma getHooks_register_dispose (t : HookType) (c : IHookConfiguration)
    (s : HooksService) :
  getHooks t (snd (dispose (fst (registerHook t c s)) (snd (registerHook t c s))))
    = remove_first c (getHooks t s ++ [c]).
Proof.
  rewrite <- (getHooks_registerHook t c s).
  unfold registerHook, getHooks.
  destruct (_registeredHooks s !! t) as [a|] eqn:E; simpl.
  - rewrite (proj1 (registered_unregister _ _ _)); simpl. rewrite E.
    rewrite array_read_unregister, decide_True by reflexivity. reflexivity.
  - rewrite (proj1 (registered_unregister _ _ _)); simpl.
    rewrite lookup_insert_eq.
    rewrite array_read_unregister, decide_True by reflexivity. reflexivity.
Qed.

(** X3. Registering a configuration that is not yet in the list of its hook
    type (no entry is that object) and invoking the returned handle gives
    back the lists as they were, for every hook type. *)
Theorem register_then_dispose_restores (t : HookType) (c : IHookConfiguration)
    (s : HooksService) :
  consistent s ->
  Forall (fun z => same_object z c = false) (getHooks t s) ->
  forall t',
    getHooks t' (snd (dispose (fst (registerHook t c s)) (snd (registerHook t c s))))
      = getHooks t' s.
Proof.
  intros Hs Hnew t'. destruct (decide (t' = t)) as [->|Hne].
  - rewrite getHooks_register_dispose.
    rewrite (remove_first_found c c (getHooks t s) [] Hnew (same_object_refl c)).
    apply app_nil_r.
  - destruct (registerHook_handle t c s Hs) as (a & Hd & Ha & _).
    rewrite Hd. simpl.
    rewrite getHooks_unregister_other.
    + apply getHooks_registerHook_other; assumption.
    + intros H. apply Hne.
      destruct (consistent_registerHook t c s Hs) as [_ Hi]. eapply Hi; eassumption.
Qed.

Lemma register_then_dispose_restores_witness :
  let s := registered PreCommit [echo_hook; script_hook] in
  consistent s /\
  Forall (fun z => same_object z lint_hook = false) (getHooks PreCommit s) /\
  getHooks PreCommit
    (snd (dispose (fst (registerHook PreCommit lint_hook s))
                  (snd (registerHook PreCommit lint_hook s))))
    = [echo_hook; script_hook].
Proof.
  intros s.
  assert (Hs : consistent s) by (apply perform_all_spec, consistent_new).
  assert (Hnew : Forall (fun z => same_object z lint_hook = false)
                        (getHooks PreCommit s))
    by (repeat constructor).
  split; [exact Hs|]. split; [exact Hnew|].
  exact (register_then_dispose_restores PreCommit lint_hook s Hs Hnew PreCommit).
Defined.

(** X4. Registering an object that is already in the list and invoking the
    new handle takes out the earlier entry, not the one just added: the list
    is left with the object moved to the end. *)
Theorem dispose_of_second_registration_removes_first (t : HookType)
    (c y : IHookConfiguration) (before after : list IHookConfiguration)
    (s : HooksService) :
  getHooks t s = before ++ y :: after ->
  same_object y c = true ->
  Forall (fun z => same_object z c = false) before ->
  getHooks t (snd (dispose (fst (registerHook t c s)) (snd (registerHook t c s))))
    = before ++ after ++ [c].
Proof.
  intros Hl Hy Hb. rewrite getHooks_register_dispose, Hl.
  rewrite <- app_assoc. simpl.
  apply (remove_first_found c y before (after ++ [c])); assumption.
Qed.

Lemma dispose_of_second_registration_removes_first_witness :
  let s := registered PreCommit [echo_hook; lint_hook; script_hook] in
  getHooks PreCommit s = [echo_hook] ++ lint_hook :: [script_hook] /\
  same_object lint_hook lint_hook = true /\
  Forall (fun z => same_object z lint_hook = false) [echo_hook] /\
  getHooks PreCommit
    (snd (dispose (fst (registerHook PreCommit lint_hook s))
                  (snd (registerHook PreCommit lint_hook s))))
    = [echo_hook; script_hook; lint_hook].
Proof.
  intros s.
  assert (Hb : Forall (fun z => same_object z lint_hook = false) [echo_hook])
    by (repeat constructor).
  split; [reflexivity|]. split; [reflexivity|]. split; [exact Hb|].
  exact (dispose_of_second_registration_removes_first PreCommit lint_hook lint_hook
           [echo_hook] [script_hook] s eq_refl eq_refl Hb).
Defined.

(** X5. The handles of two registrations can be invoked in either order:
    the registry lists come out the same for every hook type. *)
Theorem dispose_order_is_irrelevant (t1 t2 : HookType) (c1 c2 : IHookConfiguration)
    (s : HooksService) :
  let r1 := registerHook t1 c1 s in
  let r2 := registerHook t2 c2 (snd r1) in
  forall t,
    getHooks t (snd (dispose (fst r2) (snd (dispose (fst r1) (snd r2)))))
    = getHooks t (snd (dispose (fst r1) (snd (dispose (fst r2) (snd r2))))).
Proof.
  intros r1 r2 t.
  assert (H1 : exists a1, fst r1 = toDisposable (unregister a1 c1)).
  { unfold r1, registerHook. destruct (_registeredHooks s !! t1); simpl; eauto. }
  assert (H2 : exists a2, fst r2 = toDisposable (unregister a2 c2)).
  { unfold r2, registerHook. destruct (_registeredHooks (snd r1) !! t2); simpl; eauto. }
  destruct H1 as [a1 ->], H2 as [a2 ->]. simpl.
  rewrite !getHooks_unregister_any.
  rewrite !(proj1 (registered_unregister _ _ _)).
  destruct (_registeredHooks (snd r2) !! t) as [b|]; [|reflexivity].
  rewrite !array_read_unregister.
  destruct (decide (a2 = b)) as [->|], (decide (a1 = b)) as [->|];
    rewrite ?decide_True by reflexivity; rewrite ?decide_False by congruence;
    try reflexivity.
  apply remove_first_comm.
Qed.

(** X6. [loadHooksFromConfig] throws exactly when it is given [null] or
    [undefined] (the read of [config.hooks]); [loadWorkspaceHooks] guards the
    settings and catches around the file, so a reload never throws, also
    when the file holds the JSON value [null]. *)
Theorem loadWorkspaceHooks_never_throws (src : Sources) (config : JSValue)
    (s : HooksService) :
  ((exists error, loadHooksFromConfig config s = Throw error) <->
   config = JNull \/ config = JUndefined) /\
  exists s', loadWorkspaceHooks src s = Normal s'.
Proof.
  split.
  - unfold loadHooksFromConfig. split.
    + intros [error H]. destruct config; simpl in H; auto;
        try discriminate; destruct (_ || _); discriminate.
    + intros [->| ->]; simpl; eauto.
  - destruct (loadWorkspaceHooks_cases src s) as (s' & H & _). eauto.
Qed.

(** X7. When the workspace file has an object under [hooks], a reload leaves
    for every hook type exactly what the file declares for it, whatever the
    settings hold and whatever was registered before. *)
Theorem loadWorkspaceHooks_file_decides (src : Sources) (s : HooksService) :
  file_supplies src = true ->
  exists s', loadWorkspaceHooks src s = Normal s' /\
             forall t, getHooks t s' = declared_by_file t src.
Proof.
  intros Hf. destruct (loadWorkspaceHooks_cases src s) as (s' & H & _ & C).
  rewrite Hf in C. exists s'. split; [exact H|]. apply C.
Qed.

Lemma loadWorkspaceHooks_file_decides_witness :
  file_supplies both_sources = true /\
  exists s', loadWorkspaceHooks both_sources (registered PreCommit [echo_hook]) = Normal s' /\
             forall t, getHooks t s' = declared_by_file t both_sources.
Proof.
  split; [reflexivity|].
  exact (loadWorkspaceHooks_file_decides both_sources
           (registered PreCommit [echo_hook]) eq_refl).
Defined.

Lemma flat_map_declared_for_unknown (t : HookType) (name : string) (v : JSValue) :
  as_HookType name = None -> declared_for t (name, v) = [].
Proof.
  intros H. unfold declared_for; simpl.
  destruct (String.eqb_spec name (HookType_value t)) as [Heq|]; [|reflexivity].
  exfalso. eapply as_HookType_None; eassumption.
Qed.

(** X8. An entry of [hooks] whose key is not the name of a hook type is
    skipped and changes nothing else: the load gives every hook type the list
    it gives without that entry. *)
Theorem loadHooksFromConfig_skips_unknown_type (r1 r2 : nat)
    (earlier later : list (string * JSValue)) (name : string) (v : JSValue)
    (s : HooksService) :
  as_HookType name = None ->
  exists s1 s2,
    loadHooksFromConfig
      (JObject r1 [("hooks", JObject r2 (earlier ++ (name, v) :: later))]) s
      = Normal s1 /\
    loadHooksFromConfig (JObject r1 [("hooks", JObject r2 (earlier ++ later))]) s
      = Normal s2 /\
    forall t, getHooks t s1 = getHooks t s2.
Proof.
  intros Hname.
  destruct (loadHooksFromConfig_supplied
              (JObject r1 [("hooks", JObject r2 (earlier ++ (name, v) :: later))]) s eq_refl)
    as (s1 & H1 & _ & _ & G1).
  destruct (loadHooksFromConfig_supplied
              (JObject r1 [("hooks", JObject r2 (earlier ++ later))]) s eq_refl)
    as (s2 & H2 & _ & _ & G2).
  exists s1, s2. split; [exact H1|]. split; [exact H2|].
  intros t. rewrite G1, G2. unfold declared; simpl.
  rewrite !flat_map_app. simpl.
  rewrite (flat_map_declared_for_unknown t name v Hname). reflexivity.
Qed.

Lemma loadHooksFromConfig_skips_unknown_type_witness :
  as_HookType "pre-xyz" = None /\
  exists s1 s2,
    loadHooksFromConfig
      (JObject 20 [("hooks", JObject 21
         ([("pre-commit", JArray [JObject 22 (props script_hook)])]
          ++ ("pre-xyz", JArray [JObject 23 (props lint_hook)]) :: []))])
      new_HooksService = Normal s1 /\
    loadHooksFromConfig
      (JObject 20 [("hooks", JObject 21
         ([("pre-commit", JArray [JObject 22 (props script_hook)])] ++ []))])
      new_HooksService = Normal s2 /\
    forall t, getHooks t s1 = getHooks t s2.
Proof.
  split; [reflexivity|].
  exact (loadHooksFromConfig_skips_unknown_type 20 21
           [("pre-commit", JArray [JObject 22 (props script_hook)])] []
           "pre-xyz" (JArray [JObject 23 (props lint_hook)]) new_HooksService eq_refl).
Defined.

(** With the body [executeHook] has in the source, hooks that have a text
    are all executed and succeed. *)
Lemma run_steps_simulated {World : Type} (platform : Platform World)
    (fire : Listeners World) (hookType : HookType) (context : IHookContext)
    (hooks : list IHookConfiguration) (st : HooksService * World) :
  Forall (fun hook => has_text (Number_toString platform) hook = true) hooks ->
  map fst (fst (run_steps (executeHook platform) fire hookType context hooks st))
    = hooks /\
  Forall2 (simulated (Number_toString platform)) hooks
    (fst (run_steps (executeHook platform) fire hookType context hooks st)).
Proof.
  intros Hall. revert st.
  induction Hall as [|hook rest Hhook Hrest IH]; intros st; cbn [run_steps].
  - split; [reflexivity|constructor].
  - unfold has_text in Hhook.
    destruct (text_of (Number_toString platform) hook) as [text|] eqn:Etext;
      [|discriminate].
    destruct (executeHook_success platform hook context st text Etext) as [t Ht].
    rewrite Ht. cbn [stops success negb andb fst snd].
    destruct (IH (snd (turn (executeHook platform) fire hookType context hook st)))
      as [IH1 IH2].
    split.
    + cbn [map fst turn]. rewrite IH1. reflexivity.
    + constructor; [|exact IH2].
      exists text, t. split; [exact Etext|]. cbn [turn fst snd]. exact Ht.
Qed.

(** Such executions give no failed result. *)
Lemma simulated_steps_succeed (Number_toString : Z -> string)
    (hooks : list IHookConfiguration)
    (steps : list (IHookConfiguration * Completion IHookResult)) :
  Forall2 (simulated Number_toString) hooks steps ->
  no_result_failed (map (fun step => result_of (snd step)) steps) = true.
Proof.
  induction 1 as [|hook step hooks steps H _ IH]; [reflexivity|].
  destruct H as (text & t & _ & Hsnd). cbn. rewrite Hsnd. cbn. exact IH.
Qed.

(** [executeHooks] with the body [executeHook] has in the source, for hooks
    that have a text and a list that nothing writes during the call. *)
Lemma executeHooks_simulated {World : Type} (platform : Platform World)
    (fire : Listeners World) (fuel : nat) (hookType : HookType)
    (context : IHookContext) (st : HooksService * World) :
  quiet_platform platform fire (_registeredHooks (fst st) !! hookType) ->
  Forall (fun hook => has_text (Number_toString platform) hook = true)
         (getHooks hookType (fst st)) ->
  length (getHooks hookType (fst st)) <= fuel ->
  exists steps st',
    executeHooks platform fire fuel hookType context st =
      Some (map (fun step => result_of (snd step)) steps,
            flat_map (effects_of hookType context) steps,
            st') /\
    map fst steps = getHooks hookType (fst st) /\
    Forall2 (simulated (Number_toString platform)) (getHooks hookType (fst st)) steps.
Proof.
  intros Hquiet Hall Hfuel.
  unfold executeHooks. rewrite executeHooks_with_steps.
  rewrite (steps_from_quiet (executeHook platform) fire hookType context fuel
             (_registeredHooks (fst st) !! hookType) 0 st
             (quiet_platform_quiet platform fire context _ Hquiet))
    by (rewrite read_hooks_getHooks; lia).
  rewrite drop_0, read_hooks_getHooks.
  destruct (run_steps_simulated platform fire hookType context _ st Hall)
    as [H1 H2].
  destruct (run_steps (executeHook platform) fire hookType context
              (getHooks hookType (fst st)) st) as [steps st'].
  exists steps, st'. auto.
Qed.

(** X9. [executeHooks] with the body [executeHook] has in the source, when
    the script, or else the command, of every hook of the list has a text
    and nothing writes the list while the call runs: every hook of the list
    is executed, in order, whatever its [abortOnFailure]; each result is a
    success with exit code 0, an empty [stderr] and on [stdout] the text
    [Simulated execution of hook: ] followed by the text of the script, or
    else of the command; one event is fired per hook, in the same order. *)
Theorem executeHooks_simulated_results {World : Type} (platform : Platform World)
    (fire : Listeners World) (fuel : nat) (hookType : HookType)
    (context : IHookContext) (st : HooksService * World) :
  quiet_platform platform fire (_registeredHooks (fst st) !! hookType) ->
  Forall (fun hook => has_text (Number_toString platform) hook = true)
         (getHooks hookType (fst st)) ->
  length (getHooks hookType (fst st)) <= fuel ->
  exists results effects st',
    executeHooks platform fire fuel hookType context st
      = Some (results, effects, st') /\
    Forall2
      (fun hook r =>
         exitCode r = 0%Z /\ success r = true /\ stderr r = "" /\
         exists text,
           String_ (Number_toString platform) (js_or (script hook) (command hook))
             = Normal text /\
           stdout r = "Simulated execution of hook: " +:+ text)
      (getHooks hookType (fst st)) results /\
    map fst (executions effects) = getHooks hookType (fst st) /\
    map configuration (events effects) = getHooks hookType (fst st).
Proof.
  intros Hquiet Hall Hfuel.
  destruct (executeHooks_simulated platform fire fuel hookType context st
              Hquiet Hall Hfuel) as (steps & st' & Hrun & Hfst & Hsteps).
  eexists _, _, st'. split; [exact Hrun|].
  rewrite executions_effects_of, events_effects_of.
  split; [|split; [exact Hfst|]].
  - apply Forall2_fmap_r. eapply Forall2_impl; [exact Hsteps|].
    intros hook step (text & t & Htext & Hsnd). cbn. rewrite Hsnd. cbn.
    repeat split. exists text. split; [exact Htext|reflexivity].
  - rewrite map_map. exact Hfst.
Qed.

(** The two hooks of the test [should handle hook execution with
    abortOnFailure] of the service, the command [false] with
    [abortOnFailure: true] and the command [echo]: both are executed, and
    both results are successes. *)
Lemma executeHooks_simulated_results_witness :
  let s := registered PreCommit [false_hook; echo_hook] in
  exists results effects st',
    executeHooks sample_platform no_listener 2 PreCommit (sample_context PreCommit)
      (s, 0%Z) = Some (results, effects, st') /\
    map stdout results =
      ["Simulated execution of hook: false"; "Simulated execution of hook: echo"] /\
    map success results = [true; true] /\
    map fst (executions effects) = [false_hook; echo_hook].
Proof.
  intros s.
  destruct (executeHooks_simulated_results sample_platform no_listener 2 PreCommit
              (sample_context PreCommit) (s, 0%Z))
    as (results & effects & st' & Hrun & _ & Hex & _).
  - apply sample_platform_quiet.
  - repeat constructor.
  - vm_compute. lia.
  - exists results, effects, st'. split; [exact Hrun|].
    vm_compute in Hrun. injection Hrun as <- _ _.
    split; [reflexivity|]. split; [reflexivity|exact Hex].
Defined.



(** A listener that disposes the handle of the first hook when the event of
    that hook comes: the list loses its first entry while the call is at
    index 0, the entry that was third is at index 1 at the next turn, and
    the hook that was second is not executed, though no hook failed. *)
Example disposing_listener_skips_a_hook :
  let r1 := registerHook PreCommit lint_hook new_HooksService in
  let s := perform_all [OpRegister PreCommit script_hook;
                        OpRegister PreCommit echo_hook] (snd r1) in
  getHooks PreCommit s = [lint_hook; script_hook; echo_hook] /\
  exists results effects st',
    executeHooks sample_platform (disposing_listener lint_hook (fst r1)) 3
      PreCommit (sample_context PreCommit) (s, 0%Z)
      = Some (results, effects, st') /\
    map fst (executions effects) = [lint_hook; echo_hook] /\
    map success results = [true; true] /\
    getHooks PreCommit (fst st') = [script_hook; echo_hook].
Proof.
  intros r1 s. split; [reflexivity|].
  do 3 eexists. split; [reflexivity|]. split; [reflexivity|].
  split; reflexivity.
Qed.

(** * Properties of the callers *)





(** With the body [executeHook] has in the source, hooks that have a text
    and a list that nothing writes during the call give no failed result. *)
Lemma simulated_execution_never_fails {World : Type} (platform : Platform World)
    (fire : Listeners World) (fuel : nat) (hookType : HookType)
    (context : IHookContext) (st : HooksService * World) :
  quiet_platform platform fire (_registeredHooks (fst st) !! hookType) ->
  Forall (fun hook => has_text (Number_toString platform) hook = true)
         (getHooks hookType (fst st)) ->
  length (getHooks hookType (fst st)) <= fuel ->
  exists results effects st',
    executeHooks_with (executeHook platform) fire fuel hookType context st
      = Some (results, effects, st') /\
    no_result_failed results = true.
Proof.
  intros Hquiet Hall Hfuel.
  destruct (executeHooks_simulated platform fire fuel hookType context st
              Hquiet Hall Hfuel) as (steps & st' & Hrun & _ & Hsteps).
  eexists _, _, st'. split; [exact Hrun|].
  exact (simulated_steps_succeed _ _ _ Hsteps).
Qed.

(** X12. With the body [executeHook] has in the source, when the script, or
    else the command, of every hook of the list has a text and nothing
    writes the list while the call runs, no hook fails: the pre-commit and
    file-save gates of [HooksIntegration] answer [true], and [commitChanges]
    goes through. *)
Theorem gates_never_block_with_simulated_execution {World : Type}
    (platform : Platform World) (fire : Listeners World) (fuel : nat)
    (literal : nat) (filePaths : list string)
    (message workspaceUri fileUri : string)
    (folder : option string) (st : HooksService * World) :
  let ready t :=
    quiet_platform platform fire (_registeredHooks (fst st) !! t) /\
    Forall (fun hook => has_text (Number_toString platform) hook = true)
           (getHooks t (fst st)) /\
    length (getHooks t (fst st)) <= fuel in
  (ready PreCommit ->
   exists effects st',
     HooksIntegration.executePreCommitHooks (executeHook platform) fire fuel
       literal filePaths workspaceUri st = Some (true, effects, st') /\
     HooksIntegration.commitChanges (executeHook platform) fire fuel
       literal filePaths message workspaceUri st = Some (true, effects, st')) /\
  (ready FileSave ->
   exists effects st',
     HooksIntegration.executeFileSaveHooks (executeHook platform) fire fuel
       fileUri folder st = Some (true, effects, st')).
Proof.
  intros ready. split.
  - intros (Hquiet & Hall & Hfuel).
    unfold HooksIntegration.commitChanges, HooksIntegration.executePreCommitHooks.
    destruct (hasHooks PreCommit (fst st)); cbn [negb]; [|eauto].
    match goal with
    | |- context [executeHooks_with _ fire fuel PreCommit ?c st] =>
        destruct (simulated_execution_never_fails platform fire fuel PreCommit c st
                    Hquiet Hall Hfuel) as (results & effects & st' & -> & ->)
    end.
    eauto.
  - intros (Hquiet & Hall & Hfuel).
    unfold HooksIntegration.executeFileSaveHooks.
    destruct (hasHooks FileSave (fst st)); cbn [negb]; [|eauto].
    match goal with
    | |- context [executeHooks_with _ fire fuel FileSave ?c st] =>
        destruct (simulated_execution_never_fails platform fire fuel FileSave c st
                    Hquiet Hall Hfuel) as (results & effects & st' & -> & ->)
    end.
    eauto.
Qed.

(** A pre-commit hook with [abortOnFailure: true] does not keep the commit
    from going through; a pre-commit hook whose script has no text does. *)
Lemma gates_never_block_with_simulated_execution_witness :
  let s := registered PreCommit [script_hook; lint_hook] in
  (exists effects st',
     HooksIntegration.commitChanges (executeHook sample_platform) no_listener 2
       7 ["a.ts"] "fix" "file:///w" (s, 0%Z) = Some (true, effects, st')) /\
  has_text pretty tolerated_hook = false /\
  (exists effects st',
     HooksIntegration.commitChanges (executeHook sample_platform) no_listener 2
       7 ["a.ts"] "fix" "file:///w" (registered PreCommit [tolerated_hook], 0%Z)
       = Some (false, effects, st')).
Proof.
  intros s. split; [|split; [reflexivity|do 2 eexists; reflexivity]].
  destruct (proj1 (gates_never_block_with_simulated_execution sample_platform
                     no_listener 2 7 ["a.ts"] "fix" "file:///w" "file:///w/a.ts"
                     None (s, 0%Z))) as (effects & st' & _ & H).
  - split; [apply sample_platform_quiet|].
    split; [repeat constructor|vm_compute; lia].
  - exists effects, st'. exact H.
Defined.






(** X15. With the body [executeHook] has in the source, when the script, or
    else the command, of every pre-copilot-prompt hook has a text and
    nothing writes their list while the call runs, the prompt that comes
    back is not the caller's but the trimmed text
    [Simulated execution of hook: ...] of the last hook of the list (when
    trimming leaves it non-empty). *)
Theorem simulated_execution_replaces_the_prompt {World : Type}
    (platform : Platform World) (fire : Listeners World)
    (trim : string -> string) (fuel : nat)
    (literal : nat) (folders : list string) (prompt : string) (context : JSValue)
    (st : HooksService * World) (lastHook : IHookConfiguration) (text : string) :
  quiet_platform platform fire (_registeredHooks (fst st) !! PreCopilotPrompt) ->
  Forall (fun hook => has_text (Number_toString platform) hook = true)
         (getHooks PreCopilotPrompt (fst st)) ->
  length (getHooks PreCopilotPrompt (fst st)) <= fuel ->
  last (getHooks PreCopilotPrompt (fst st)) = Some lastHook ->
  String_ (Number_toString platform) (js_or (script lastHook) (command lastHook))
    = Normal text ->
  trim ("Simulated execution of hook: " +:+ text) <> "" ->
  exists effects st',
    CopilotHooksIntegration.executePreCopilotPromptHooks (executeHook platform)
      fire trim fuel literal folders prompt context st
    = Some (Some (trim ("Simulated execution of hook: " +:+ text)), effects, st').
Proof.
  intros Hquiet Hall Hfuel Hlast Htext Htrim.
  unfold CopilotHooksIntegration.executePreCopilotPromptHooks.
  assert (Hhas : hasHooks PreCopilotPrompt (fst st) = true).
  { destruct (hasHooks PreCopilotPrompt (fst st)) eqn:E; [reflexivity|].
    apply hasHooks_getHooks in E. rewrite E in Hlast. discriminate. }
  rewrite Hhas. cbn [negb].
  match goal with
  | |- context [executeHooks_with _ fire fuel PreCopilotPrompt ?c st] =>
      destruct (executeHooks_simulated platform fire fuel PreCopilotPrompt c st
                  Hquiet Hall Hfuel) as (steps & st' & Hrun & Hfst & Hsteps);
      unfold executeHooks in Hrun; rewrite Hrun
  end.
  rewrite (simulated_steps_succeed _ _ _ Hsteps). cbn [negb].
  assert (Hl : exists t,
            last (map (fun step => result_of (snd step)) steps) =
            Some {| exitCode := 0;
                    stdout := "Simulated execution of hook: " +:+ text;
                    stderr := "";
                    success := true;
                    executionTime := t |}).
  { rewrite last_lookup in Hlast. rewrite last_lookup, length_map.
    rewrite <- (Forall2_length _ _ _ Hsteps).
    destruct (Forall2_lookup_l _ _ _ _ _ Hsteps Hlast) as (step & Hstep & H).
    destruct H as (text' & t & Htext' & Hsnd).
    exists t. rewrite list_lookup_fmap, Hstep. cbn. rewrite Hsnd. cbn.
    unfold text_of in Htext'. rewrite Htext in Htext'. injection Htext' as <-.
    reflexivity. }
  destruct Hl as [t ->]. cbn [stdout].
  destruct (String.eqb_spec (trim ("Simulated execution of hook: " +:+ text)) "")
    as [Heq|_]; [contradiction|]. cbn [negb]. eauto.
Qed.

Lemma simulated_execution_replaces_the_prompt_witness :
  let s := registered PreCopilotPrompt [lint_hook; script_hook] in
  exists effects st',
    CopilotHooksIntegration.executePreCopilotPromptHooks
      (executeHook sample_platform) no_listener sample_trim 2 7 []
      "explain this code" JUndefined (s, 0%Z)
    = Some (Some (sample_trim ("Simulated execution of hook: " +:+ "./a.sh")),
            effects, st').
Proof.
  intros s.
  apply (simulated_execution_replaces_the_prompt sample_platform no_listener
           sample_trim 2 7 [] "explain this code" JUndefined (s, 0%Z)
           script_hook "./a.sh").
  - apply sample_platform_quiet.
  - repeat constructor.
  - vm_compute. lia.
  - reflexivity.
  - reflexivity.
  - discriminate.
Defined.

(** X16. The command [hooks.clearAll] leaves the map of the registry empty:
    no hook type has hooks, and a handle made before the command changes no
    list when it is invoked afterwards. *)
Theorem clearAll_empties_registry (s : HooksService) :
  _registeredHooks (HooksWorkbenchContribution.clearAll s) = ∅ /\
  (forall t, getHooks t (HooksWorkbenchContribution.clearAll s) = [] /\
             hasHooks t (HooksWorkbenchContribution.clearAll s) = false) /\
  (forall a c t,
     getHooks t (unregister a c (HooksWorkbenchContribution.clearAll s)) = []).
Proof.
  assert (Hmap : _registeredHooks (HooksWorkbenchContribution.clearAll s) = ∅).
  { unfold HooksWorkbenchContribution.clearAll. simpl.
    apply map_eq. intros t. rewrite lookup_empty.
    destruct t; repeat (rewrite lookup_delete_eq || rewrite lookup_delete_ne by discriminate);
      reflexivity. }
  assert (Hget : forall t, getHooks t (HooksWorkbenchContribution.clearAll s) = []).
  { intros t. unfold getHooks. rewrite Hmap, lookup_empty. reflexivity. }
  split; [exact Hmap|]. split.
  - intros t. split; [apply Hget|apply hasHooks_getHooks, Hget].
  - intros a c t. rewrite getHooks_unregister_other; [apply Hget|].
    rewrite Hmap, lookup_empty. discriminate.
Qed.

Lemma notifications_of_step (hookType : HookType) (context : IHookContext)
    (step : IHookConfiguration * Completion IHookResult) :
  length (HooksWorkbenchContribution.notifications
            (HooksWorkbenchContribution.listener
               {| event_hookType := hookType;
                  configuration := fst step;
                  result := result_of (snd step);
                  context := context |}))
  = if stops (fst step) (snd step) then 1 else 0.
Proof.
  destruct step as [hook [r|e]]; unfold HooksWorkbenchContribution.listener; simpl.
  - destruct (success r); simpl; [reflexivity|].
    destruct (truthy (abortOnFailure hook)); reflexivity.
  - destruct (truthy (abortOnFailure hook)); reflexivity.
Qed.

Lemma notifications_of_steps (hookType : HookType) (context : IHookContext)
    (steps : list (IHookConfiguration * Completion IHookResult)) :
  (forall k step, steps !! k = Some step -> stops (fst step) (snd step) = true ->
                  length steps = S k) ->
  let shown :=
    HooksWorkbenchContribution.notifications
      (flat_map HooksWorkbenchContribution.listener
         (map (event_of hookType context) steps)) in
  length shown <= 1 /\
  (length shown = 1 <->
   exists step, last steps = Some step /\ stops (fst step) (snd step) = true).
Proof.
  induction steps as [|step rest IH]; intros Hlast; cbn zeta.
  - cbn. split; [lia|]. split; [discriminate|]. intros (step & H & _). discriminate.
  - cbn [map flat_map]. unfold HooksWorkbenchContribution.notifications in *.
    rewrite omap_app, length_app.
    pose proof (notifications_of_step hookType context step) as Hstep.
    unfold HooksWorkbenchContribution.notifications, event_of in *.
    rewrite Hstep.
    destruct (stops (fst step) (snd step)) eqn:E.
    + assert (Hrest : rest = []).
      { specialize (Hlast 0 step eq_refl E). destruct rest; [reflexivity|discriminate]. }
      subst rest. cbn. split; [lia|]. split; [|reflexivity].
      intros _. exists step. auto.
    + destruct IH as [IH1 IH2].
      { intros k step' Hk Hs. specialize (Hlast (S k) step' Hk Hs).
        cbn in Hlast. lia. }
      cbn zeta in IH1, IH2. cbn [Nat.add]. split; [exact IH1|].
      rewrite IH2. split.
      * intros (step' & Hl & Hs). exists step'. split; [|exact Hs].
        destruct rest; [discriminate|exact Hl].
      * intros (step' & Hl & Hs). exists step'. split; [|exact Hs].
        destruct rest as [|x rest]; [|exact Hl].
        cbn in Hl. injection Hl as <-. congruence.
Qed.

(** X17. During one call of [executeHooks] the listener of the workbench
    contribution shows at most one warning notification; it shows one
    exactly when the last hook the call executed failed with a truthy
    [abortOnFailure], which is what ended the call. *)
Theorem at_most_one_notification_per_call {World : Type} (runner : Runner World)
    (fire : Listeners World) (fuel : nat)
    (hookType : HookType) (context : IHookContext)
    (st st' : HooksService * World)
    (results : list IHookResult) (effects : list Effect) :
  executeHooks_with runner fire fuel hookType context st
    = Some (results, effects, st') ->
  let shown :=
    HooksWorkbenchContribution.notifications
      (flat_map HooksWorkbenchContribution.listener (events effects)) in
  length shown <= 1 /\
  (length shown = 1 <->
   exists hook outcome,
     last (executions effects) = Some (hook, outcome) /\
     success (result_of outcome) = false /\
     truthy (abortOnFailure hook) = true).
Proof.
  intros Hret. apply executeHooks_with_returned in Hret as (Hsteps & _ & Heff).
  cbn zeta. rewrite Heff at 1 2. rewrite events_effects_of.
  destruct (notifications_of_steps hookType context (executions effects)) as [H1 H2].
  { intros k step Hk Hs.
    exact (steps_from_stops runner fire hookType context _ _ _ _ _ _ _ _ Hsteps Hk Hs). }
  cbn zeta in H1, H2. split; [exact H1|]. rewrite H2. split.
  - intros ([hook outcome] & Hl & Hs). exists hook, outcome.
    split; [exact Hl|]. cbn [fst snd] in Hs.
    destruct outcome as [r|e]; cbn in *.
    + apply andb_true_iff in Hs as [Hs1 Hs2]. apply negb_true_iff in Hs1. auto.
    + auto.
  - intros (hook & outcome & Hl & Hf & Ha). exists (hook, outcome).
    split; [exact Hl|]. cbn [fst snd]. rewrite (stops_failed _ _ Hf). exact Ha.
Qed.

(** A hook that fails without [abortOnFailure], then one that fails with
    it: one notification. *)
Lemma at_most_one_notification_per_call_witness :
  let s := registered PreCommit [tolerated_hook; failing_hook; lint_hook] in
  exists results effects st',
    executeHooks sample_platform no_listener 3 PreCommit (sample_context PreCommit)
      (s, 0%Z) = Some (results, effects, st') /\
    length (HooksWorkbenchContribution.notifications
              (flat_map HooksWorkbenchContribution.listener (events effects))) = 1.
Proof.
  intros s.
  destruct (executeHooks sample_platform no_listener 3 PreCommit
              (sample_context PreCommit) (s, 0%Z))
    as [[[results effects] st']|] eqn:E; [|discriminate].
  exists results, effects, st'. split; [reflexivity|].
  apply (proj2 (proj2 (at_most_one_notification_per_call
                         (executeHook sample_platform) no_listener 3 PreCommit
                         (sample_context PreCommit) (s, 0%Z) st' results effects E))).
  exists failing_hook, (Throw (JSError "Cannot convert object to primitive value")).
  split; [injection E as _ <- _; reflexivity|]. split; reflexivity.
Defined.

(** * Properties of the hooks service of the chat *)

(** X18. A chat hook that is not configured, that is switched off with
    [enabled: false], or that is met in a sandboxed window is not executed:
    the result is a success that lets the chat continue, whatever the token
    and the context. *)
Theorem chat_hook_skipped_lets_chat_continue (Number_toString : Z -> string)
    (getValue : string -> JSValue)
    (isElectronSandboxed : bool) {ChatContext : Type}
    (contextArg_of : ChatContext -> Completion string)
    (hookType : string) (context : ChatContext)
    (token : ChatHooksService.CancellationToken) :
  truthy (getValue ("chat.hooks." +:+ hookType)) = false \/
  ChatHooksService.member (getValue ("chat.hooks." +:+ hookType)) "enabled" = JBool false \/
  isElectronSandboxed = true ->
  ChatHooksService.executeHook Number_toString getValue isElectronSandboxed contextArg_of
    hookType context token
  = {| ChatHooksService.success := true;
       ChatHooksService.shouldContinue := true;
       ChatHooksService.modifiedMessage := None;
       ChatHooksService.modifiedContext := None;
       ChatHooksService.error := None |}.
Proof.
  unfold ChatHooksService.executeHook, ChatHooksService.getHookConfiguration.
  intros [H|[H|H]].
  - rewrite H. reflexivity.
  - rewrite H, andb_false_r. reflexivity.
  - subst. destruct (negb _); reflexivity.
Qed.

Lemma chat_hook_skipped_lets_chat_continue_witness :
  ChatHooksService.member (sample_chat_settings ("chat.hooks." +:+ "post-copilot-response"))
    "enabled" = JBool false /\
  ChatHooksService.executeHook pretty sample_chat_settings false sample_contextArg
    "post-copilot-response" "ctx"
    {| ChatHooksService.isCancellationRequested := true;
       ChatHooksService.cancelledWhileRunning := false |}
  = {| ChatHooksService.success := true;
       ChatHooksService.shouldContinue := true;
       ChatHooksService.modifiedMessage := None;
       ChatHooksService.modifiedContext := None;
       ChatHooksService.error := None |}.
Proof.
  split; [reflexivity|].
  apply (chat_hook_skipped_lets_chat_continue pretty sample_chat_settings false
           sample_contextArg "post-copilot-response" "ctx").
  right. left. reflexivity.
Defined.

(** X19. The chat hook tells the chat to stop ([shouldContinue = false])
    only when the token was cancelled, before or during the execution; the
    result is then a failure with the error [Hook execution cancelled].
    Every other failure lets the chat continue. *)
Theorem chat_hook_stops_only_on_cancellation (Number_toString : Z -> string)
    (getValue : string -> JSValue)
    (isElectronSandboxed : bool) {ChatContext : Type}
    (contextArg_of : ChatContext -> Completion string)
    (hookType : string) (context : ChatContext)
    (token : ChatHooksService.CancellationToken) :
  ChatHooksService.shouldContinue
    (ChatHooksService.executeHook Number_toString getValue isElectronSandboxed contextArg_of
       hookType context token) = false ->
  (ChatHooksService.isCancellationRequested token = true \/
   ChatHooksService.cancelledWhileRunning token = true) /\
  ChatHooksService.success
    (ChatHooksService.executeHook Number_toString getValue isElectronSandboxed contextArg_of
       hookType context token) = false /\
  ChatHooksService.error
    (ChatHooksService.executeHook Number_toString getValue isElectronSandboxed contextArg_of
       hookType context token) = Some "Hook execution cancelled".
Proof.
  unfold ChatHooksService.executeHook, ChatHooksService.simulateHookExecution.
  destruct (negb _); simpl; [discriminate|].
  destruct isElectronSandboxed; simpl; [discriminate|].
  destruct (ChatHooksService.buildCommand _ _ _); simpl; [|discriminate].
  destruct (ChatHooksService.isCancellationRequested token) eqn:E1; simpl; [auto|].
  destruct (ChatHooksService.cancelledWhileRunning token) eqn:E2; simpl;
    [auto|discriminate].
Qed.

Lemma chat_hook_stops_only_on_cancellation_witness :
  let token := {| ChatHooksService.isCancellationRequested := false;
                  ChatHooksService.cancelledWhileRunning := true |} in
  ChatHooksService.shouldContinue
    (ChatHooksService.executePreCopilotChatPromptHook pretty sample_chat_settings false
       sample_contextArg "ctx" token) = false /\
  ChatHooksService.error
    (ChatHooksService.executePreCopilotChatPromptHook pretty sample_chat_settings false
       sample_contextArg "ctx" token) = Some "Hook execution cancelled".
Proof.
  intros token. split; [reflexivity|].
  apply (chat_hook_stops_only_on_cancellation pretty sample_chat_settings false
           sample_contextArg "pre-copilot-chat-prompt" "ctx" token).
  reflexivity.
Defined.

(** X20. A chat hook that is configured and enabled but has neither a
    script nor a command gives a failure that lets the chat continue, with
    the error [Hook configuration must specify either script or command];
    this is so also when the token is already cancelled, since the command
    is built before the token is tested. *)
Theorem chat_hook_without_script_or_command (Number_toString : Z -> string)
    (getValue : string -> JSValue)
    {ChatContext : Type} (contextArg_of : ChatContext -> Completion string)
    (hookType : string) (context : ChatContext) (contextArg : string)
    (token : ChatHooksService.CancellationToken) :
  let hookConfig := getValue ("chat.hooks." +:+ hookType) in
  truthy hookConfig = true ->
  ChatHooksService.member hookConfig "enabled" <> JBool false ->
  contextArg_of context = Normal contextArg ->
  truthy (ChatHooksService.member hookConfig "script") = false ->
  truthy (ChatHooksService.member hookConfig "command") = false ->
  ChatHooksService.executeHook Number_toString getValue false contextArg_of hookType context token
  = {| ChatHooksService.success := false;
       ChatHooksService.shouldContinue := true;
       ChatHooksService.modifiedMessage := None;
       ChatHooksService.modifiedContext := None;
       ChatHooksService.error :=
         Some "Hook configuration must specify either script or command" |}.
Proof.
  intros hookConfig Ht He Hc Hs Hcmd.
  unfold ChatHooksService.executeHook, ChatHooksService.getHookConfiguration.
  fold hookConfig. rewrite Ht.
  assert (Hen : match ChatHooksService.member hookConfig "enabled" with
                | JBool false => false
                | _ => true
                end = true).
  { destruct (ChatHooksService.member hookConfig "enabled") as [| |[|]| | | |];
      try reflexivity. contradiction. }
  rewrite Hen. cbn [andb]. rewrite Ht. cbn [negb].
  unfold ChatHooksService.buildCommand. rewrite Hc, Hs, Hcmd. reflexivity.
Qed.

Lemma chat_hook_without_script_or_command_witness :
  let hookConfig := sample_chat_settings ("chat.hooks." +:+ "pre-context-attach") in
  truthy hookConfig = true /\
  ChatHooksService.member hookConfig "enabled" <> JBool false /\
  ChatHooksService.executeHook pretty sample_chat_settings false sample_contextArg
    "pre-context-attach" "ctx"
    {| ChatHooksService.isCancellationRequested := true;
       ChatHooksService.cancelledWhileRunning := false |}
  = {| ChatHooksService.success := false;
       ChatHooksService.shouldContinue := true;
       ChatHooksService.modifiedMessage := None;
       ChatHooksService.modifiedContext := None;
       ChatHooksService.error :=
         Some "Hook configuration must specify either script or command" |}.
Proof.
  intros hookConfig.
  assert (He : ChatHooksService.member hookConfig "enabled" <> JBool false)
    by discriminate.
  split; [reflexivity|]. split; [exact He|].
  exact (chat_hook_without_script_or_command pretty sample_chat_settings sample_contextArg
           "pre-context-attach" "ctx" "ctx" _ eq_refl He eq_refl eq_refl eq_refl).
Defined.
